(** * TextStyle: change notification, derived key and legacy migration

    A shallow embedding of [src/scene/text/TextStyle.ts]: the [TextStyle]
    class (setters, [update], [reset], [styleKey], [clone], [destroy]), its
    constructor and [convertV7Tov8Style].

    JavaScript numbers are IEEE binary64 values and are modelled by Rocq's
    primitive floats.  The class mutates [this]; methods are written in a
    small monad that threads the instance, records what is emitted and
    propagates exceptions. *)

From Stdlib Require Import Bool Ascii String List ZArith Lia Floats.
From Stdlib Require Import DecimalString.
Import ListNotations.

Local Open Scope string_scope.
Local Open Scope list_scope.

(** * ECMAScript primitives used by the class *)

(** The Number type. *)
Definition number : Type := float.

Module JS.

Definition NaN : number := PrimFloat.nan.

(** [F(z)]: the Number nearest to the mathematical integer [z]
    (round to nearest, ties to even). *)
Definition of_Z (z : Z) : number :=
  SF2Prim (binary_normalize prec emax z 0 false).

(** [a === b] on two Numbers: [NaN] differs from itself, [+0] equals [-0]. *)
Definition number_strict_eq (a b : number) : bool := PrimFloat.eqb a b.

(** ToBoolean on a Number: [0], [-0] and [NaN] are falsy. *)
Definition number_truthy (n : number) : bool :=
  negb (PrimFloat.eqb n 0%float || PrimFloat.is_nan n).

(** ToBoolean on a String: only the empty string is falsy. *)
Definition string_truthy (s : string) : bool :=
  match s with EmptyString => false | String _ _ => true end.

(** Strings are sequences of 8-bit characters here; the white space of
    [parseInt] is then TAB, LF, VT, FF, CR, SP and NBSP. *)
Definition is_whitespace (c : ascii) : bool :=
  let n := nat_of_ascii c in
  ((9 <=? n) && (n <=? 13) || (n =? 32) || (n =? 160))%nat.

Fixpoint trim_start (s : string) : string :=
  match s with
  | String c rest => if is_whitespace c then trim_start rest else s
  | EmptyString => EmptyString
  end.

Definition digit_value (c : ascii) : option Z :=
  let n := nat_of_ascii c in
  if ((48 <=? n) && (n <=? 57))%nat then Some (Z.of_nat (n - 48)) else None.

(** The decimal digits [s] starts with, up to its first other character. *)
Fixpoint leading_digits (s : string) : list Z :=
  match s with
  | String c rest =>
      match digit_value c with
      | Some d => d :: leading_digits rest
      | None => []
      end
  | EmptyString => []
  end.

Definition digits_value (ds : list Z) : Z :=
  fold_left (fun acc d => 10 * acc + d)%Z ds 0%Z.

(** An optional sign in front: whether it is a minus, and what follows. *)
Definition split_sign (s : string) : bool * string :=
  match s with
  | String "-"%char rest => (true, rest)
  | String "+"%char rest => (false, rest)
  | _ => (false, s)
  end.

(** [parseInt(s, 10)] (ECMA-262, 19.2.5): skip leading white space, read
    an optional sign, then the longest run of decimal digits; no digit
    gives [NaN]; a negative zero is kept. *)
Definition parseInt10 (s : string) : number :=
  let '(negative, s2) := split_sign (trim_start s) in
  match leading_digits s2 with
  | [] => NaN
  | ds =>
      let mathInt := digits_value ds in
      if (mathInt =? 0)%Z
      then (if negative then PrimFloat.neg_zero else PrimFloat.zero)
      else of_Z (if negative then - mathInt else mathInt)
  end.

(** [Math.PI]. *)
Definition Math_PI : number := 0x1.921fb54442d18p+1%float.

End JS.

(** * Data model *)

(** Object identity: heap objects are compared by reference by [===]. *)
Definition Ref : Type := nat.

(** A texture is a shared heap object owned outside this class. *)
Definition Texture : Type := Ref.

Inductive TextStyleAlign := align_left | align_center | align_right | align_justify.
Inductive TextStyleFontStyle := fontStyle_normal | fontStyle_italic | fontStyle_oblique.
Inductive TextStyleFontVariant := fontVariant_normal | fontVariant_small_caps.
Inductive TextStyleFontWeight :=
  | weight_normal | weight_bold | weight_bolder | weight_lighter
  | weight_100 | weight_200 | weight_300 | weight_400 | weight_500
  | weight_600 | weight_700 | weight_800 | weight_900.
Inductive TextStyleLineJoin := join_miter | join_round | join_bevel.
Inductive TextStyleTextBaseline :=
  | baseline_alphabetic | baseline_top | baseline_hanging
  | baseline_middle | baseline_ideographic | baseline_bottom.
Inductive TextStyleWhiteSpace := whiteSpace_normal | whiteSpace_pre | whiteSpace_pre_line.

(** [string | string[]]. *)
Inductive FontFamily :=
  | FamilyName (name : string)
  | FamilyList (names : list string).

(** [number | string], the argument of the [fontSize] setter. *)
Inductive FontSizeInput :=
  | SizeNumber (n : number)
  | SizeString (s : string).

(** [ColorSource], restricted to the two shapes this file builds or reads:
    a colour string and a numeric colour. *)
Inductive ColorSource :=
  | ColorString (s : string)
  | ColorNumber (n : number).

(** [TextDropShadow]. *)
Record TextDropShadow := mkDropShadow {
  shadow_alpha : number;
  shadow_angle : number;
  shadow_blur : number;
  shadow_color : ColorSource;
  shadow_distance : number
}.

(** [Partial<TextDropShadow>]: an absent member is [None]. *)
Record PartialDropShadow := mkPartialDropShadow {
  p_alpha : option number;
  p_angle : option number;
  p_blur : option number;
  p_color : option ColorSource;
  p_distance : option number
}.

(** What the [dropShadow] setter accepts: [null] (or [undefined]), a
    boolean, or an object. *)
Inductive DropShadowInput :=
  | ShadowNull
  | ShadowBool (b : bool)
  | ShadowObject (p : PartialDropShadow).

(** Modelled from the spec: the [FillGradient] class is not part of these
    sources.  A gradient paint built from colour stops: the four
    constructor arguments and the stops added by [addColorStop], each a
    ratio and a numeric colour, in insertion order. *)
Record FillGradient := mkFillGradient {
  gradient_ref : Ref;
  gradient_x0 : number;
  gradient_y0 : number;
  gradient_x1 : number;
  gradient_y1 : number;
  gradientStops : list (number * number)
}.

Definition addColorStop (ratio color : number) (g : FillGradient) : FillGradient :=
  mkFillGradient (gradient_ref g) (gradient_x0 g) (gradient_y0 g)
    (gradient_x1 g) (gradient_y1 g) (gradientStops g ++ [(ratio, color)]).

(** The members of a [FillStyle] / [StrokeStyle] object that this file
    writes or reads ([color], [width], [fill], [texture]) and [alpha]; the
    interface itself is declared outside these sources.  [C] is the type of
    the [color] member. *)
Record FillStyleOf (C : Type) := mkFillStyle {
  style_ref : Ref;
  style_color : C;
  style_alpha : option number;
  style_texture : option Texture;
  style_fill : option FillGradient;
  style_width : option number
}.
Arguments mkFillStyle {C}.
Arguments style_ref {C}.
Arguments style_color {C}.
Arguments style_alpha {C}.
Arguments style_texture {C}.
Arguments style_fill {C}.
Arguments style_width {C}.

(** [FillStyleInputs]: the raw value given to the [fill] and [stroke]
    setters.  [RawArray] is the v7 array-shaped fill. *)
#[warnings="-register-all"]
Inductive FillStyleInputs :=
  | RawUndefined
  | RawNull
  | RawString (s : string)
  | RawNumber (n : number)
  | RawArray (r : Ref) (colors : list ColorSource)
  | RawGradient (g : FillGradient)
  | RawStyle (o : FillStyleOf FillStyleInputs).

(** [FillStyle]: a paint object as callers write it. *)
Definition FillStyle : Type := FillStyleOf FillStyleInputs.

(** [ConvertedFillStyle] / [ConvertedStrokeStyle]: the canonical paint
    descriptor, a [FillStyle] whose colour is a number. *)
Definition ConvertedFillStyle : Type := FillStyleOf number.

(** A descriptor handed back where a raw input is expected (as [clone]
    does): the same object, seen at its wider type. *)
Definition as_input (d : ConvertedFillStyle) : FillStyleInputs :=
  RawStyle (mkFillStyle (style_ref d) (RawNumber (style_color d)) (style_alpha d)
              (style_texture d) (style_fill d) (style_width d)).

(** [a === b] on raw inputs: primitives by value, objects by reference. *)
Definition strict_eq (a b : FillStyleInputs) : bool :=
  match a, b with
  | RawUndefined, RawUndefined => true
  | RawNull, RawNull => true
  | RawString s, RawString t => String.eqb s t
  | RawNumber n, RawNumber m => JS.number_strict_eq n m
  | RawArray r _, RawArray r' _ => Nat.eqb r r'
  | RawGradient g, RawGradient g' => Nat.eqb (gradient_ref g) (gradient_ref g')
  | RawStyle o, RawStyle o' => Nat.eqb (style_ref o) (style_ref o')
  | _, _ => false
  end.

(** [x?.texture] on a raw input: only a paint object has the member. *)
Definition input_texture (v : FillStyleInputs) : option Texture :=
  match v with
  | RawStyle o => style_texture o
  | _ => None
  end.

(** * The instance

    The private fields of the class in declaration order, and the
    ['update'] listeners held by the [EventEmitter] base class.  A
    [null] or [undefined] descriptor, drop shadow or key is [None]. *)

Definition Listener : Type := nat.

Record TextStyle := mkTextStyle {
  _fill : option ConvertedFillStyle;
  _originalFill : FillStyleInputs;
  _stroke : option ConvertedFillStyle;
  _originalStroke : FillStyleInputs;
  _dropShadow : option TextDropShadow;
  _fontFamily : FontFamily;
  _fontSize : number;
  _fontStyle : TextStyleFontStyle;
  _fontVariant : TextStyleFontVariant;
  _fontWeight : TextStyleFontWeight;
  _breakWords : bool;
  _align : TextStyleAlign;
  _leading : number;
  _letterSpacing : number;
  _lineHeight : number;
  _textBaseline : TextStyleTextBaseline;
  _whiteSpace : TextStyleWhiteSpace;
  _wordWrap : bool;
  _wordWrapWidth : number;
  _padding : number;
  _styleKey : option string;
  _trim : bool;
  _listeners : list Listener
}.

(** Field assignments [this._x = v]. *)

Definition with_fill (v : option ConvertedFillStyle) (s : TextStyle) : TextStyle :=
  mkTextStyle v (_originalFill s) (_stroke s) (_originalStroke s)
    (_dropShadow s) (_fontFamily s) (_fontSize s) (_fontStyle s)
    (_fontVariant s) (_fontWeight s) (_breakWords s) (_align s) (_leading s)
    (_letterSpacing s) (_lineHeight s) (_textBaseline s) (_whiteSpace s)
    (_wordWrap s) (_wordWrapWidth s) (_padding s) (_styleKey s) (_trim s)
    (_listeners s).

Definition with_originalFill (v : FillStyleInputs) (s : TextStyle) : TextStyle :=
  mkTextStyle (_fill s) v (_stroke s) (_originalStroke s) (_dropShadow s)
    (_fontFamily s) (_fontSize s) (_fontStyle s) (_fontVariant s)
    (_fontWeight s) (_breakWords s) (_align s) (_leading s) (_letterSpacing s)
    (_lineHeight s) (_textBaseline s) (_whiteSpace s) (_wordWrap s)
    (_wordWrapWidth s) (_padding s) (_styleKey s) (_trim s) (_listeners s).

Definition with_stroke (v : option ConvertedFillStyle) (s : TextStyle) : TextStyle :=
  mkTextStyle (_fill s) (_originalFill s) v (_originalStroke s)
    (_dropShadow s) (_fontFamily s) (_fontSize s) (_fontStyle s)
    (_fontVariant s) (_fontWeight s) (_breakWords s) (_align s) (_leading s)
    (_letterSpacing s) (_lineHeight s) (_textBaseline s) (_whiteSpace s)
    (_wordWrap s) (_wordWrapWidth s) (_padding s) (_styleKey s) (_trim s)
    (_listeners s).

Definition with_originalStroke (v : FillStyleInputs) (s : TextStyle) : TextStyle :=
  mkTextStyle (_fill s) (_originalFill s) (_stroke s) v (_dropShadow s)
    (_fontFamily s) (_fontSize s) (_fontStyle s) (_fontVariant s)
    (_fontWeight s) (_breakWords s) (_align s) (_leading s) (_letterSpacing s)
    (_lineHeight s) (_textBaseline s) (_whiteSpace s) (_wordWrap s)
    (_wordWrapWidth s) (_padding s) (_styleKey s) (_trim s) (_listeners s).

Definition with_dropShadow (v : option TextDropShadow) (s : TextStyle) : TextStyle :=
  mkTextStyle (_fill s) (_originalFill s) (_stroke s) (_originalStroke s) v
    (_fontFamily s) (_fontSize s) (_fontStyle s) (_fontVariant s)
    (_fontWeight s) (_breakWords s) (_align s) (_leading s) (_letterSpacing s)
    (_lineHeight s) (_textBaseline s) (_whiteSpace s) (_wordWrap s)
    (_wordWrapWidth s) (_padding s) (_styleKey s) (_trim s) (_listeners s).

Definition with_fontFamily (v : FontFamily) (s : TextStyle) : TextStyle :=
  mkTextStyle (_fill s) (_originalFill s) (_stroke s) (_originalStroke s)
    (_dropShadow s) v (_fontSize s) (_fontStyle s) (_fontVariant s)
    (_fontWeight s) (_breakWords s) (_align s) (_leading s) (_letterSpacing s)
    (_lineHeight s) (_textBaseline s) (_whiteSpace s) (_wordWrap s)
    (_wordWrapWidth s) (_padding s) (_styleKey s) (_trim s) (_listeners s).

Definition with_fontSize (v : number) (s : TextStyle) : TextStyle :=
  mkTextStyle (_fill s) (_originalFill s) (_stroke s) (_originalStroke s)
    (_dropShadow s) (_fontFamily s) v (_fontStyle s) (_fontVariant s)
    (_fontWeight s) (_breakWords s) (_align s) (_leading s) (_letterSpacing s)
    (_lineHeight s) (_textBaseline s) (_whiteSpace s) (_wordWrap s)
    (_wordWrapWidth s) (_padding s) (_styleKey s) (_trim s) (_listeners s).

Definition with_fontStyle (v : TextStyleFontStyle) (s : TextStyle) : TextStyle :=
  mkTextStyle (_fill s) (_originalFill s) (_stroke s) (_originalStroke s)
    (_dropShadow s) (_fontFamily s) (_fontSize s) v (_fontVariant s)
    (_fontWeight s) (_breakWords s) (_align s) (_leading s) (_letterSpacing s)
    (_lineHeight s) (_textBaseline s) (_whiteSpace s) (_wordWrap s)
    (_wordWrapWidth s) (_padding s) (_styleKey s) (_trim s) (_listeners s).

Definition with_fontVariant (v : TextStyleFontVariant) (s : TextStyle) : TextStyle :=
  mkTextStyle (_fill s) (_originalFill s) (_stroke s) (_originalStroke s)
    (_dropShadow s) (_fontFamily s) (_fontSize s) (_fontStyle s) v
    (_fontWeight s) (_breakWords s) (_align s) (_leading s) (_letterSpacing s)
    (_lineHeight s) (_textBaseline s) (_whiteSpace s) (_wordWrap s)
    (_wordWrapWidth s) (_padding s) (_styleKey s) (_trim s) (_listeners s).

Definition with_fontWeight (v : TextStyleFontWeight) (s : TextStyle) : TextStyle :=
  mkTextStyle (_fill s) (_originalFill s) (_stroke s) (_originalStroke s)
    (_dropShadow s) (_fontFamily s) (_fontSize s) (_fontStyle s)
    (_fontVariant s) v (_breakWords s) (_align s) (_leading s)
    (_letterSpacing s) (_lineHeight s) (_textBaseline s) (_whiteSpace s)
    (_wordWrap s) (_wordWrapWidth s) (_padding s) (_styleKey s) (_trim s)
    (_listeners s).

Definition with_breakWords (v : bool) (s : TextStyle) : TextStyle :=
  mkTextStyle (_fill s) (_originalFill s) (_stroke s) (_originalStroke s)
    (_dropShadow s) (_fontFamily s) (_fontSize s) (_fontStyle s)
    (_fontVariant s) (_fontWeight s) v (_align s) (_leading s)
    (_letterSpacing s) (_lineHeight s) (_textBaseline s) (_whiteSpace s)
    (_wordWrap s) (_wordWrapWidth s) (_padding s) (_styleKey s) (_trim s)
    (_listeners s).

Definition with_align (v : TextStyleAlign) (s : TextStyle) : TextStyle :=
  mkTextStyle (_fill s) (_originalFill s) (_stroke s) (_originalStroke s)
    (_dropShadow s) (_fontFamily s) (_fontSize s) (_fontStyle s)
    (_fontVariant s) (_fontWeight s) (_breakWords s) v (_leading s)
    (_letterSpacing s) (_lineHeight s) (_textBaseline s) (_whiteSpace s)
    (_wordWrap s) (_wordWrapWidth s) (_padding s) (_styleKey s) (_trim s)
    (_listeners s).

Definition with_leading (v : number) (s : TextStyle) : TextStyle :=
  mkTextStyle (_fill s) (_originalFill s) (_stroke s) (_originalStroke s)
    (_dropShadow s) (_fontFamily s) (_fontSize s) (_fontStyle s)
    (_fontVariant s) (_fontWeight s) (_breakWords s) (_align s) v
    (_letterSpacing s) (_lineHeight s) (_textBaseline s) (_whiteSpace s)
    (_wordWrap s) (_wordWrapWidth s) (_padding s) (_styleKey s) (_trim s)
    (_listeners s).

Definition with_letterSpacing (v : number) (s : TextStyle) : TextStyle :=
  mkTextStyle (_fill s) (_originalFill s) (_stroke s) (_originalStroke s)
    (_dropShadow s) (_fontFamily s) (_fontSize s) (_fontStyle s)
    (_fontVariant s) (_fontWeight s) (_breakWords s) (_align s) (_leading s) v
    (_lineHeight s) (_textBaseline s) (_whiteSpace s) (_wordWrap s)
    (_wordWrapWidth s) (_padding s) (_styleKey s) (_trim s) (_listeners s).

Definition with_lineHeight (v : number) (s : TextStyle) : TextStyle :=
  mkTextStyle (_fill s) (_originalFill s) (_stroke s) (_originalStroke s)
    (_dropShadow s) (_fontFamily s) (_fontSize s) (_fontStyle s)
    (_fontVariant s) (_fontWeight s) (_breakWords s) (_align s) (_leading s)
    (_letterSpacing s) v (_textBaseline s) (_whiteSpace s) (_wordWrap s)
    (_wordWrapWidth s) (_padding s) (_styleKey s) (_trim s) (_listeners s).

Definition with_textBaseline (v : TextStyleTextBaseline) (s : TextStyle) : TextStyle :=
  mkTextStyle (_fill s) (_originalFill s) (_stroke s) (_originalStroke s)
    (_dropShadow s) (_fontFamily s) (_fontSize s) (_fontStyle s)
    (_fontVariant s) (_fontWeight s) (_breakWords s) (_align s) (_leading s)
    (_letterSpacing s) (_lineHeight s) v (_whiteSpace s) (_wordWrap s)
    (_wordWrapWidth s) (_padding s) (_styleKey s) (_trim s) (_listeners s).

Definition with_whiteSpace (v : TextStyleWhiteSpace) (s : TextStyle) : TextStyle :=
  mkTextStyle (_fill s) (_originalFill s) (_stroke s) (_originalStroke s)
    (_dropShadow s) (_fontFamily s) (_fontSize s) (_fontStyle s)
    (_fontVariant s) (_fontWeight s) (_breakWords s) (_align s) (_leading s)
    (_letterSpacing s) (_lineHeight s) (_textBaseline s) v (_wordWrap s)
    (_wordWrapWidth s) (_padding s) (_styleKey s) (_trim s) (_listeners s).

Definition with_wordWrap (v : bool) (s : TextStyle) : TextStyle :=
  mkTextStyle (_fill s) (_originalFill s) (_stroke s) (_originalStroke s)
    (_dropShadow s) (_fontFamily s) (_fontSize s) (_fontStyle s)
    (_fontVariant s) (_fontWeight s) (_breakWords s) (_align s) (_leading s)
    (_letterSpacing s) (_lineHeight s) (_textBaseline s) (_whiteSpace s) v
    (_wordWrapWidth s) (_padding s) (_styleKey s) (_trim s) (_listeners s).

Definition with_wordWrapWidth (v : number) (s : TextStyle) : TextStyle :=
  mkTextStyle (_fill s) (_originalFill s) (_stroke s) (_originalStroke s)
    (_dropShadow s) (_fontFamily s) (_fontSize s) (_fontStyle s)
    (_fontVariant s) (_fontWeight s) (_breakWords s) (_align s) (_leading s)
    (_letterSpacing s) (_lineHeight s) (_textBaseline s) (_whiteSpace s)
    (_wordWrap s) v (_padding s) (_styleKey s) (_trim s) (_listeners s).

Definition with_padding (v : number) (s : TextStyle) : TextStyle :=
  mkTextStyle (_fill s) (_originalFill s) (_stroke s) (_originalStroke s)
    (_dropShadow s) (_fontFamily s) (_fontSize s) (_fontStyle s)
    (_fontVariant s) (_fontWeight s) (_breakWords s) (_align s) (_leading s)
    (_letterSpacing s) (_lineHeight s) (_textBaseline s) (_whiteSpace s)
    (_wordWrap s) (_wordWrapWidth s) v (_styleKey s) (_trim s) (_listeners s).

Definition with_styleKey (v : option string) (s : TextStyle) : TextStyle :=
  mkTextStyle (_fill s) (_originalFill s) (_stroke s) (_originalStroke s)
    (_dropShadow s) (_fontFamily s) (_fontSize s) (_fontStyle s)
    (_fontVariant s) (_fontWeight s) (_breakWords s) (_align s) (_leading s)
    (_letterSpacing s) (_lineHeight s) (_textBaseline s) (_whiteSpace s)
    (_wordWrap s) (_wordWrapWidth s) (_padding s) v (_trim s) (_listeners s).

Definition with_trim (v : bool) (s : TextStyle) : TextStyle :=
  mkTextStyle (_fill s) (_originalFill s) (_stroke s) (_originalStroke s)
    (_dropShadow s) (_fontFamily s) (_fontSize s) (_fontStyle s)
    (_fontVariant s) (_fontWeight s) (_breakWords s) (_align s) (_leading s)
    (_letterSpacing s) (_lineHeight s) (_textBaseline s) (_whiteSpace s)
    (_wordWrap s) (_wordWrapWidth s) (_padding s) (_styleKey s) v
    (_listeners s).

Definition with_listeners (v : list Listener) (s : TextStyle) : TextStyle :=
  mkTextStyle (_fill s) (_originalFill s) (_stroke s) (_originalStroke s)
    (_dropShadow s) (_fontFamily s) (_fontSize s) (_fontStyle s)
    (_fontVariant s) (_fontWeight s) (_breakWords s) (_align s) (_leading s)
    (_letterSpacing s) (_lineHeight s) (_textBaseline s) (_whiteSpace s)
    (_wordWrap s) (_wordWrapWidth s) (_padding s) (_styleKey s) (_trim s) v.

(** * Constructor options

    [TextStyleOptions], followed by the v7 members that
    [convertV7Tov8Style] reads through [style as any].  An absent member is
    [None]. *)

Record TextStyleOptions := mkOptions {
  align : option TextStyleAlign;
  breakWords : option bool;
  dropShadow : option DropShadowInput;
  fill : option FillStyleInputs;
  fontFamily : option FontFamily;
  fontSize : option FontSizeInput;
  fontStyle : option TextStyleFontStyle;
  fontVariant : option TextStyleFontVariant;
  fontWeight : option TextStyleFontWeight;
  leading : option number;
  letterSpacing : option number;
  lineHeight : option number;
  padding : option number;
  stroke : option FillStyleInputs;
  textBaseline : option TextStyleTextBaseline;
  trim : option bool;
  whiteSpace : option TextStyleWhiteSpace;
  wordWrap : option bool;
  wordWrapWidth : option number;
  dropShadowAlpha : option number;
  dropShadowAngle : option number;
  dropShadowBlur : option number;
  dropShadowColor : option ColorSource;
  dropShadowDistance : option number;
  strokeThickness : option number;
  fillGradientStops : option (list number)
}.

(** [{}]. *)
Definition no_options : TextStyleOptions :=
  mkOptions None None None None None None None None None None None None None
    None None None None None None None None None None None None None.

(** Member assignments [style.x = v] made by the migration. *)

Definition options_with_dropShadow (v : DropShadowInput) (o : TextStyleOptions) :=
  mkOptions (align o) (breakWords o) (Some v) (fill o) (fontFamily o)
    (fontSize o) (fontStyle o) (fontVariant o) (fontWeight o) (leading o)
    (letterSpacing o) (lineHeight o) (padding o) (stroke o) (textBaseline o)
    (trim o) (whiteSpace o) (wordWrap o) (wordWrapWidth o)
    (dropShadowAlpha o) (dropShadowAngle o) (dropShadowBlur o)
    (dropShadowColor o) (dropShadowDistance o) (strokeThickness o)
    (fillGradientStops o).

Definition options_with_fill (v : FillStyleInputs) (o : TextStyleOptions) :=
  mkOptions (align o) (breakWords o) (dropShadow o) (Some v) (fontFamily o)
    (fontSize o) (fontStyle o) (fontVariant o) (fontWeight o) (leading o)
    (letterSpacing o) (lineHeight o) (padding o) (stroke o) (textBaseline o)
    (trim o) (whiteSpace o) (wordWrap o) (wordWrapWidth o)
    (dropShadowAlpha o) (dropShadowAngle o) (dropShadowBlur o)
    (dropShadowColor o) (dropShadowDistance o) (strokeThickness o)
    (fillGradientStops o).

Definition options_with_stroke (v : FillStyleInputs) (o : TextStyleOptions) :=
  mkOptions (align o) (breakWords o) (dropShadow o) (fill o) (fontFamily o)
    (fontSize o) (fontStyle o) (fontVariant o) (fontWeight o) (leading o)
    (letterSpacing o) (lineHeight o) (padding o) (Some v) (textBaseline o)
    (trim o) (whiteSpace o) (wordWrap o) (wordWrapWidth o)
    (dropShadowAlpha o) (dropShadowAngle o) (dropShadowBlur o)
    (dropShadowColor o) (dropShadowDistance o) (strokeThickness o)
    (fillGradientStops o).

(** [a ?? b]. *)
Definition nullish {A : Type} (a : option A) (b : A) : A :=
  match a with Some x => x | None => b end.

(** [{ ...a, ...b }], member by member. *)
Definition over {A : Type} (a b : option A) : option A :=
  match b with Some _ => b | None => a end.

Definition spread (a b : TextStyleOptions) : TextStyleOptions :=
  mkOptions (over (align a) (align b)) (over (breakWords a) (breakWords b))
    (over (dropShadow a) (dropShadow b)) (over (fill a) (fill b))
    (over (fontFamily a) (fontFamily b)) (over (fontSize a) (fontSize b))
    (over (fontStyle a) (fontStyle b)) (over (fontVariant a) (fontVariant b))
    (over (fontWeight a) (fontWeight b)) (over (leading a) (leading b))
    (over (letterSpacing a) (letterSpacing b))
    (over (lineHeight a) (lineHeight b)) (over (padding a) (padding b))
    (over (stroke a) (stroke b)) (over (textBaseline a) (textBaseline b))
    (over (trim a) (trim b)) (over (whiteSpace a) (whiteSpace b))
    (over (wordWrap a) (wordWrap b)) (over (wordWrapWidth a) (wordWrapWidth b))
    (over (dropShadowAlpha a) (dropShadowAlpha b))
    (over (dropShadowAngle a) (dropShadowAngle b))
    (over (dropShadowBlur a) (dropShadowBlur b))
    (over (dropShadowColor a) (dropShadowColor b))
    (over (dropShadowDistance a) (dropShadowDistance b))
    (over (strokeThickness a) (strokeThickness b))
    (over (fillGradientStops a) (fillGradientStops b)).

(** One step [this[key] = value] of a [for ... in] loop over an options
    object, for the members that have a setter. *)
Inductive Assignment :=
  | Assign_align (v : TextStyleAlign)
  | Assign_breakWords (v : bool)
  | Assign_dropShadow (v : DropShadowInput)
  | Assign_fill (v : FillStyleInputs)
  | Assign_fontFamily (v : FontFamily)
  | Assign_fontSize (v : FontSizeInput)
  | Assign_fontStyle (v : TextStyleFontStyle)
  | Assign_fontVariant (v : TextStyleFontVariant)
  | Assign_fontWeight (v : TextStyleFontWeight)
  | Assign_leading (v : number)
  | Assign_letterSpacing (v : number)
  | Assign_lineHeight (v : number)
  | Assign_padding (v : number)
  | Assign_stroke (v : FillStyleInputs)
  | Assign_textBaseline (v : TextStyleTextBaseline)
  | Assign_trim (v : bool)
  | Assign_whiteSpace (v : TextStyleWhiteSpace)
  | Assign_wordWrap (v : bool)
  | Assign_wordWrapWidth (v : number).

Definition entry {A : Type} (f : A -> Assignment) (o : option A) : list Assignment :=
  match o with Some v => [f v] | None => [] end.

(** The members of [o] that have a setter, in the order of
    [defaultTextStyle]: the enumeration order of the defaults and of any
    object spread over them. *)
Definition entries (o : TextStyleOptions) : list Assignment :=
  entry Assign_align (align o) ++ entry Assign_breakWords (breakWords o)
  ++ entry Assign_dropShadow (dropShadow o) ++ entry Assign_fill (fill o)
  ++ entry Assign_fontFamily (fontFamily o) ++ entry Assign_fontSize (fontSize o)
  ++ entry Assign_fontStyle (fontStyle o) ++ entry Assign_fontVariant (fontVariant o)
  ++ entry Assign_fontWeight (fontWeight o) ++ entry Assign_leading (leading o)
  ++ entry Assign_letterSpacing (letterSpacing o)
  ++ entry Assign_lineHeight (lineHeight o) ++ entry Assign_padding (padding o)
  ++ entry Assign_stroke (stroke o) ++ entry Assign_textBaseline (textBaseline o)
  ++ entry Assign_trim (trim o) ++ entry Assign_whiteSpace (whiteSpace o)
  ++ entry Assign_wordWrap (wordWrap o) ++ entry Assign_wordWrapWidth (wordWrapWidth o).

(** [TextStyle.defaultDropShadow]. *)
Definition defaultDropShadow : TextDropShadow :=
  mkDropShadow 1%float (JS.Math_PI / 6)%float 0%float (ColorString "black") 5%float.

(** [TextStyle.defaultTextStyle]. *)
Definition defaultTextStyle : TextStyleOptions :=
  mkOptions
    (Some align_left) (Some false) (Some ShadowNull) (Some (RawString "black"))
    (Some (FamilyName "Arial")) (Some (SizeNumber 26%float))
    (Some fontStyle_normal) (Some fontVariant_normal) (Some weight_normal)
    (Some 0%float) (Some 0%float) (Some 0%float) (Some 0%float)
    (Some RawNull) (Some baseline_alphabetic) (Some false)
    (Some whiteSpace_pre) (Some false) (Some 100%float)
    None None None None None None None.

(** * Effects *)

(** What a call makes visible outside the instance: an [emit('update',
    this)] with the instance as it is at that moment, a
    [texture.destroy(destroySource)] on a shared texture, a [deprecation]
    notice. *)
Inductive Event :=
  | Update (payload : TextStyle)
  | TextureDestroy (t : Texture) (destroySource : option bool)
  | Deprecation (message : string).

Inductive Error :=
  | TypeError (message : string)
  | CollaboratorError (message : string).

Inductive Completion (A : Type) :=
  | Normal (a : A)
  | Throw (e : Error).
Arguments Normal {A}.
Arguments Throw {A}.

(** A computation on a mutable object of type [S]: its completion, the
    object as the call leaves it (also when it throws) and the events, in
    order. *)
Definition M (S A : Type) : Type := S -> Completion A * S * list Event.

Definition ret {S A : Type} (a : A) : M S A := fun s => (Normal a, s, []).

Definition bind {S A B : Type} (c : M S A) (k : A -> M S B) : M S B :=
  fun s =>
    match c s with
    | (Normal a, s1, t1) =>
        let '(r, s2, t2) := k a s1 in (r, s2, t1 ++ t2)
    | (Throw e, s1, t1) => (Throw e, s1, t1)
    end.

Definition get {S : Type} : M S S := fun s => (Normal s, s, []).
Definition modify {S : Type} (f : S -> S) : M S unit := fun s => (Normal tt, f s, []).
Definition log {S : Type} (e : Event) : M S unit := fun s => (Normal tt, s, [e]).
Definition lift {S A : Type} (r : Completion A) : M S A := fun s => (r, s, []).

Declare Scope js_scope.
Delimit Scope js_scope with js.
Notation "x <- c ;; k" := (bind c (fun x => k))
  (at level 61, c at next level, right associativity) : js_scope.
Notation "c ;; k" := (bind c (fun _ => k))
  (at level 61, right associativity) : js_scope.
Local Open Scope js_scope.

(** [for (const x of xs) body(x)]. *)
Fixpoint for_each {S A : Type} (xs : list A) (body : A -> M S unit) : M S unit :=
  match xs with
  | [] => ret tt
  | x :: rest => body x ;; for_each rest body
  end.

(** Run a computation on a new object [s0] from inside a computation on
    another one; the new object is the result. *)
Definition on_new {S T : Type} (s0 : T) (c : M T unit) : M S T :=
  fun s =>
    match c s0 with
    | (Normal _, t, tr) => (Normal t, s, tr)
    | (Throw e, _, tr) => (Throw e, s, tr)
    end.

Definition completion {S A : Type} (r : Completion A * S * list Event) : Completion A :=
  fst (fst r).
Definition final {S A : Type} (r : Completion A * S * list Event) : S :=
  snd (fst r).
Definition events {S A : Type} (r : Completion A * S * list Event) : list Event :=
  snd r.

Definition is_update (e : Event) : bool :=
  match e with Update _ => true | _ => false end.

(** The number of [emit('update', ...)] calls in a run. *)
Definition updates (t : list Event) : nat := length (filter is_update t).

(** The callbacks a run invokes: each [emit] reaches the listeners
    registered at that moment. *)
Definition deliveries (t : list Event) : list (Listener * TextStyle) :=
  flat_map (fun e =>
    match e with
    | Update p => map (fun l => (l, p)) (_listeners p)
    | _ => []
    end) t.

Definition texture_destroys (t : list Event) : list (Texture * option bool) :=
  flat_map (fun e =>
    match e with
    | TextureDestroy x b => [(x, b)]
    | _ => []
    end) t.

(** * The reading of [fontSize] strings in the specification

    "A numeric-with-unit-suffix size string is parsed to a plain number by
    stripping non-digit characters": every character that is not a decimal
    digit is dropped and the digits left are read as a number. *)



(** * Collaborators, modelled

    The class calls code that lies outside these sources.  The class
    below is parametric in it; this module gives one model of each piece,
    used where a statement needs a concrete collaborator. *)

Module Model.

(** ** Rendering of values in the key *)

Definition Z_toString (z : Z) : string := NilZero.string_of_int (Z.to_int z).

Fixpoint zeros (n : nat) : string :=
  match n with
  | O => ""
  | S k => String "0"%char (zeros k)
  end.

Fixpoint strip_trailing_zeros (s : string) : string :=
  match s with
  | EmptyString => EmptyString
  | String c rest =>
      match strip_trailing_zeros rest with
      | EmptyString => if Ascii.eqb c "0"%char then EmptyString else String c EmptyString
      | kept => String c kept
      end
  end.

(** The value [m * 2^e], [m] positive, in positional decimal notation. *)
Definition positional (m e : Z) : string :=
  if (0 <=? e)%Z then Z_toString (m * 2 ^ e)
  else
    let k := Z.to_nat (- e) in
    let digits := Z_toString (m * 5 ^ (- e)) in
    let len := String.length digits in
    let int_part := if (len <=? k)%nat then "0" else substring 0 (len - k) digits in
    let frac_part :=
      if (len <=? k)%nat then (zeros (k - len) ++ digits)%string
      else substring (len - k) k digits in
    match strip_trailing_zeros frac_part with
    | EmptyString => int_part
    | frac => (int_part ++ "." ++ frac)%string
    end.

(** Modelled from the spec: how a Number is written into the key is not
    fixed by the spec, which asks for a stable rendering of each value.
    The Number is written exactly, in positional decimal notation; this
    is what [Number::toString] prints for [NaN], the infinities, the
    zeros and the integers up to 2^53, while for other values it prints
    the shortest digits that read back to the same Number. *)
Definition Number_toString (x : number) : string :=
  match Prim2SF x with
  | S754_zero _ => "0"
  | S754_infinity false => "Infinity"
  | S754_infinity true => "-Infinity"
  | S754_nan => "NaN"
  | S754_finite s m e => ((if s then "-" else "") ++ positional (Zpos m) e)%string
  end.

Definition Boolean_toString (b : bool) : string := if b then "true" else "false".

(** The string each literal type stands for. *)

Definition align_string (v : TextStyleAlign) : string :=
  match v with
  | align_left => "left" | align_center => "center"
  | align_right => "right" | align_justify => "justify"
  end.

Definition fontStyle_string (v : TextStyleFontStyle) : string :=
  match v with
  | fontStyle_normal => "normal" | fontStyle_italic => "italic"
  | fontStyle_oblique => "oblique"
  end.

Definition fontVariant_string (v : TextStyleFontVariant) : string :=
  match v with
  | fontVariant_normal => "normal" | fontVariant_small_caps => "small-caps"
  end.

Definition fontWeight_string (v : TextStyleFontWeight) : string :=
  match v with
  | weight_normal => "normal" | weight_bold => "bold"
  | weight_bolder => "bolder" | weight_lighter => "lighter"
  | weight_100 => "100" | weight_200 => "200" | weight_300 => "300"
  | weight_400 => "400" | weight_500 => "500" | weight_600 => "600"
  | weight_700 => "700" | weight_800 => "800" | weight_900 => "900"
  end.

Definition textBaseline_string (v : TextStyleTextBaseline) : string :=
  match v with
  | baseline_alphabetic => "alphabetic" | baseline_top => "top"
  | baseline_hanging => "hanging" | baseline_middle => "middle"
  | baseline_ideographic => "ideographic" | baseline_bottom => "bottom"
  end.

Definition whiteSpace_string (v : TextStyleWhiteSpace) : string :=
  match v with
  | whiteSpace_normal => "normal" | whiteSpace_pre => "pre"
  | whiteSpace_pre_line => "pre-line"
  end.

Definition fontFamily_string (v : FontFamily) : string :=
  match v with
  | FamilyName name => name
  | FamilyList names => String.concat "," names
  end.

Definition color_string (c : ColorSource) : string :=
  match c with
  | ColorString s => s
  | ColorNumber n => Number_toString n
  end.

Definition optional {A : Type} (f : A -> string) (o : option A) : string :=
  match o with Some x => f x | None => "" end.

Definition stop_string (stop : number * number) : string :=
  (Number_toString (fst stop) ++ ":" ++ Number_toString (snd stop))%string.

Definition gradient_string (g : FillGradient) : string :=
  String.concat ","
    [Number_toString (gradient_x0 g); Number_toString (gradient_y0 g);
     Number_toString (gradient_x1 g); Number_toString (gradient_y1 g);
     String.concat ";" (map stop_string (gradientStops g))].

Definition texture_string (t : Texture) : string := Z_toString (Z.of_nat t).

(** A paint descriptor: its colour, alpha, texture, gradient and width. *)
Definition paint_string (d : ConvertedFillStyle) : string :=
  String.concat ","
    [Number_toString (style_color d); optional Number_toString (style_alpha d);
     optional texture_string (style_texture d);
     optional gradient_string (style_fill d);
     optional Number_toString (style_width d)].

Definition shadow_string (d : TextDropShadow) : string :=
  String.concat ","
    [Number_toString (shadow_alpha d); Number_toString (shadow_angle d);
     Number_toString (shadow_blur d); color_string (shadow_color d);
     Number_toString (shadow_distance d)].

(** ** The key generator *)

(** The current value of every property, rendered, in the order in which
    [defaultTextStyle] lists the properties.  The value of [fill] and of
    [stroke] is the resolved paint descriptor. *)
Definition keyFields (s : TextStyle) : list string :=
  [align_string (_align s);
   Boolean_toString (_breakWords s);
   optional shadow_string (_dropShadow s);
   optional paint_string (_fill s);
   fontFamily_string (_fontFamily s);
   Number_toString (_fontSize s);
   fontStyle_string (_fontStyle s);
   fontVariant_string (_fontVariant s);
   fontWeight_string (_fontWeight s);
   Number_toString (_leading s);
   Number_toString (_letterSpacing s);
   Number_toString (_lineHeight s);
   Number_toString (_padding s);
   optional paint_string (_stroke s);
   textBaseline_string (_textBaseline s);
   Boolean_toString (_trim s);
   whiteSpace_string (_whiteSpace s);
   Boolean_toString (_wordWrap s);
   Number_toString (_wordWrapWidth s)].


(** Modelled from the spec: [generateTextStyleKey] is not part of these
    sources.  The key is "a stable concatenation [...] of every
    property's current value, in a fixed canonical order", computed
    "from the full current property set". *)
Definition generateTextStyleKey (s : TextStyle) : string :=
  String.concat "-" (keyFields s).

(** ** Colours and the paint converter *)

Definition named_colors : list (string * number) :=
  [("black", 0x000000%float); ("white", 0xFFFFFF%float);
   ("red", 0xFF0000%float); ("green", 0x008000%float);
   ("blue", 0x0000FF%float)].

Fixpoint lookup_color (name : string) (table : list (string * number)) : option number :=
  match table with
  | [] => None
  | (k, v) :: rest => if String.eqb k name then Some v else lookup_color name rest
  end.

(** Modelled from the spec: the [Color] class is not part of these
    sources.  A numeric colour within [0, 0xFFFFFF] is itself; a colour
    string is looked up by name; anything else is rejected. *)
Definition Color_toNumber (c : ColorSource) : Completion number :=
  match c with
  | ColorNumber n =>
      if ((0 <=? n) && (n <=? 0xFFFFFF))%float then Normal n
      else Throw (CollaboratorError "Unable to convert color")
  | ColorString s =>
      match lookup_color s named_colors with
      | Some n => Normal n
      | None => Throw (CollaboratorError "Unable to convert color")
      end
  end.

(** Modelled from the spec: [GraphicsContext.defaultFillStyle] and
    [defaultStrokeStyle] are not part of these sources; the spec calls
    them the default-paint templates.  Here: opaque white on texture
    [0], and the same with a width of one for strokes. *)
Definition defaultFillStyle : ConvertedFillStyle :=
  mkFillStyle 1 0xFFFFFF%float (Some 1%float) (Some 0) None None.

Definition defaultStrokeStyle : ConvertedFillStyle :=
  mkFillStyle 2 0xFFFFFF%float (Some 1%float) (Some 0) None (Some 1%float).

Definition with_color (n : number) (d : ConvertedFillStyle) : ConvertedFillStyle :=
  mkFillStyle (style_ref d) n (style_alpha d) (style_texture d) (style_fill d)
    (style_width d).

Definition with_gradient (g : FillGradient) (d : ConvertedFillStyle) : ConvertedFillStyle :=
  mkFillStyle (style_ref d) (style_color d) (style_alpha d) (style_texture d)
    (Some g) (style_width d).

(** Stops evenly spaced: the ratio of a stop is its index over the count. *)
Fixpoint even_stops (len index : nat) (colors : list number) (g : FillGradient) : FillGradient :=
  match colors with
  | [] => g
  | c :: rest =>
      even_stops len (S index) rest
        (addColorStop (JS.of_Z (Z.of_nat index) / JS.of_Z (Z.of_nat len))%float c g)
  end.

Fixpoint colors_toNumber (colors : list ColorSource) : Completion (list number) :=
  match colors with
  | [] => Normal []
  | c :: rest =>
      match Color_toNumber c, colors_toNumber rest with
      | Normal n, Normal ns => Normal (n :: ns)
      | Throw e, _ => Throw e
      | _, Throw e => Throw e
      end
  end.

Definition raw_color (v : FillStyleInputs) : option ColorSource :=
  match v with
  | RawString s => Some (ColorString s)
  | RawNumber n => Some (ColorNumber n)
  | _ => None
  end.

(** Modelled from the spec: [convertFillInputToFillStyle] is not part of
    these sources.  "A raw fill/stroke input (color string, numeric
    color, list of colors treated as gradient stops, or an already-built
    paint object) is converted [...] into the canonical paint-descriptor
    shape", from the raw value and a default-paint template, with a
    failure for an input that is not recognised.  No paint ([null],
    [undefined]) gives no descriptor.  The descriptor keeps the
    reference of the template it is built from. *)
Definition convertFillInputToFillStyle (value : FillStyleInputs)
    (defaultStyle : ConvertedFillStyle) : Completion (option ConvertedFillStyle) :=
  match value with
  | RawUndefined | RawNull => Normal None
  | RawString s =>
      match Color_toNumber (ColorString s) with
      | Normal n => Normal (Some (with_color n defaultStyle))
      | Throw e => Throw e
      end
  | RawNumber n =>
      match Color_toNumber (ColorNumber n) with
      | Normal c => Normal (Some (with_color c defaultStyle))
      | Throw e => Throw e
      end
  | RawArray r colors =>
      match colors_toNumber colors with
      | Normal ns =>
          let g := mkFillGradient r 0%float 0%float 0%float 0%float [] in
          Normal (Some (with_gradient (even_stops (length ns) 0 ns g) defaultStyle))
      | Throw e => Throw e
      end
  | RawGradient g => Normal (Some (with_gradient g defaultStyle))
  | RawStyle o =>
      let painted :=
        mkFillStyle (style_ref defaultStyle) (style_color defaultStyle)
          (over (style_alpha defaultStyle) (style_alpha o))
          (over (style_texture defaultStyle) (style_texture o))
          (over (style_fill defaultStyle) (style_fill o))
          (over (style_width defaultStyle) (style_width o)) in
      match style_color o with
      | RawUndefined => Normal (Some painted)
      | c =>
          match raw_color c with
          | Some source =>
              match Color_toNumber source with
              | Normal n => Normal (Some (with_color n painted))
              | Throw e => Throw e
              end
          | None => Throw (CollaboratorError "UnsupportedPaintInput")
          end
      end
  end.

(** ToNumber on a String, for the strings that are white space around an
    optionally signed run of decimal digits, and for the strings with
    white space only (which give [0]).  Every other string is taken to
    [NaN], as ToNumber does for a size with a unit such as ['26px'];
    fractions, exponents, other radices and [Infinity] are not covered. *)
Fixpoint all_whitespace (s : string) : bool :=
  match s with
  | EmptyString => true
  | String c rest => JS.is_whitespace c && all_whitespace rest
  end.

Fixpoint digits_then_space (s : string) : bool :=
  match s with
  | EmptyString => true
  | String c rest =>
      match JS.digit_value c with
      | Some _ => digits_then_space rest
      | None => all_whitespace s
      end
  end.

Definition StringToNumber (s : string) : number :=
  let s1 := JS.trim_start s in
  let unsigned :=
    match s1 with
    | String "-"%char rest => rest
    | String "+"%char rest => rest
    | _ => s1
    end in
  match s1 with
  | EmptyString => 0%float
  | _ =>
      match JS.leading_digits unsigned with
      | [] => JS.NaN
      | _ => if digits_then_space unsigned then JS.parseInt10 s else JS.NaN
      end
  end.

End Model.

(** * The class *)

Section TextStyleClass.

(** Collaborators declared outside these sources. *)

(** [convertFillInputToFillStyle(value, defaultStyle)]: the paint
    descriptor for a raw input, [null] for none, or an exception for an
    input it does not recognise. *)
Variable convertFillInputToFillStyle :
  FillStyleInputs -> ConvertedFillStyle -> Completion (option ConvertedFillStyle).

(** [GraphicsContext.defaultFillStyle] and [defaultStrokeStyle]. *)
Variable defaultFillStyle : ConvertedFillStyle.
Variable defaultStrokeStyle : ConvertedFillStyle.

(** [generateTextStyleKey(style)]. *)
Variable generateTextStyleKey : TextStyle -> string.

(** [Color.shared.setValue(color).toNumber()]. *)
Variable Color_toNumber : ColorSource -> Completion number.

(** ToNumber on a String (ECMA-262, 7.1.4.1.1). *)
Variable StringToNumber : string -> number.

(** ** EventEmitter *)

Definition on (l : Listener) : M TextStyle unit :=
  modify (fun s => with_listeners (_listeners s ++ [l]) s).

Definition removeAllListeners : M TextStyle unit :=
  modify (with_listeners []).

(** [emit('update', this)]. *)
Definition emit_update : M TextStyle unit :=
  this <- get ;; log (Update this).

(** ** update *)

Definition update : M TextStyle unit :=
  modify (with_styleKey None) ;;
  emit_update.

(** ** Accessors *)

Definition get_dropShadow (s : TextStyle) : option TextDropShadow := _dropShadow s.
Definition get_fontSize (s : TextStyle) : number := _fontSize s.
Definition get_fill (s : TextStyle) : FillStyleInputs := _originalFill s.
Definition get_stroke (s : TextStyle) : FillStyleInputs := _originalStroke s.

Definition set_align (value : TextStyleAlign) : M TextStyle unit :=
  modify (with_align value) ;; update.

Definition set_breakWords (value : bool) : M TextStyle unit :=
  modify (with_breakWords value) ;; update.

(** [{ ...TextStyle.defaultDropShadow, ...value }]. *)
Definition spread_shadow (d : TextDropShadow) (p : PartialDropShadow) : TextDropShadow :=
  mkDropShadow (nullish (p_alpha p) (shadow_alpha d))
    (nullish (p_angle p) (shadow_angle d))
    (nullish (p_blur p) (shadow_blur d))
    (nullish (p_color p) (shadow_color d))
    (nullish (p_distance p) (shadow_distance d)).

Definition set_dropShadow (value : DropShadowInput) : M TextStyle unit :=
  match value with
  | ShadowObject p =>
      modify (with_dropShadow (Some (spread_shadow defaultDropShadow p)))
  | ShadowBool b =>
      modify (with_dropShadow (if b then Some defaultDropShadow else None))
  | ShadowNull =>
      modify (with_dropShadow None)
  end ;;
  update.

Definition set_fontFamily (value : FontFamily) : M TextStyle unit :=
  modify (with_fontFamily value) ;; update.

Definition set_fontSize (value : FontSizeInput) : M TextStyle unit :=
  match value with
  | SizeString s => modify (with_fontSize (JS.parseInt10 s))
  | SizeNumber n => modify (with_fontSize n)
  end ;;
  update.

Definition set_fontStyle (value : TextStyleFontStyle) : M TextStyle unit :=
  modify (with_fontStyle value) ;; update.

Definition set_fontVariant (value : TextStyleFontVariant) : M TextStyle unit :=
  modify (with_fontVariant value) ;; update.

Definition set_fontWeight (value : TextStyleFontWeight) : M TextStyle unit :=
  modify (with_fontWeight value) ;; update.

Definition set_leading (value : number) : M TextStyle unit :=
  modify (with_leading value) ;; update.

Definition set_letterSpacing (value : number) : M TextStyle unit :=
  modify (with_letterSpacing value) ;; update.

Definition set_lineHeight (value : number) : M TextStyle unit :=
  modify (with_lineHeight value) ;; update.

Definition set_padding (value : number) : M TextStyle unit :=
  modify (with_padding value) ;; update.

Definition set_trim (value : bool) : M TextStyle unit :=
  modify (with_trim value) ;; update.

Definition set_textBaseline (value : TextStyleTextBaseline) : M TextStyle unit :=
  modify (with_textBaseline value) ;; update.

Definition set_whiteSpace (value : TextStyleWhiteSpace) : M TextStyle unit :=
  modify (with_whiteSpace value) ;; update.

Definition set_wordWrap (value : bool) : M TextStyle unit :=
  modify (with_wordWrap value) ;; update.

Definition set_wordWrapWidth (value : number) : M TextStyle unit :=
  modify (with_wordWrapWidth value) ;; update.

(** [value === 0x0 ? 'black' : value]. *)
Definition black_if_zero (value : FillStyleInputs) : FillStyleInputs :=
  if strict_eq value (RawNumber 0%float) then RawString "black" else value.

Definition set_fill (value : FillStyleInputs) : M TextStyle unit :=
  this <- get ;;
  if strict_eq value (_originalFill this) then ret tt
  else
    modify (with_originalFill value) ;;
    converted <- lift (convertFillInputToFillStyle (black_if_zero value) defaultFillStyle) ;;
    modify (with_fill converted) ;;
    update.

Definition set_stroke (value : FillStyleInputs) : M TextStyle unit :=
  this <- get ;;
  if strict_eq value (_originalStroke this) then ret tt
  else
    modify (with_originalStroke value) ;;
    converted <- lift (convertFillInputToFillStyle value defaultStrokeStyle) ;;
    modify (with_stroke converted) ;;
    update.

(** [this[key] = value]: the setter named by the key. *)
Definition assign (a : Assignment) : M TextStyle unit :=
  match a with
  | Assign_align v => set_align v
  | Assign_breakWords v => set_breakWords v
  | Assign_dropShadow v => set_dropShadow v
  | Assign_fill v => set_fill v
  | Assign_fontFamily v => set_fontFamily v
  | Assign_fontSize v => set_fontSize v
  | Assign_fontStyle v => set_fontStyle v
  | Assign_fontVariant v => set_fontVariant v
  | Assign_fontWeight v => set_fontWeight v
  | Assign_leading v => set_leading v
  | Assign_letterSpacing v => set_letterSpacing v
  | Assign_lineHeight v => set_lineHeight v
  | Assign_padding v => set_padding v
  | Assign_stroke v => set_stroke v
  | Assign_textBaseline v => set_textBaseline v
  | Assign_trim v => set_trim v
  | Assign_whiteSpace v => set_whiteSpace v
  | Assign_wordWrap v => set_wordWrap v
  | Assign_wordWrapWidth v => set_wordWrapWidth v
  end.

(** ** The derived key *)

Definition _generateKey : M TextStyle string :=
  this <- get ;;
  let key := generateTextStyleKey this in
  modify (with_styleKey (Some key)) ;;
  ret key.

(** [this._styleKey || this._generateKey()]. *)
Definition styleKey : M TextStyle string :=
  this <- get ;;
  match _styleKey this with
  | Some key => if JS.string_truthy key then ret key else _generateKey
  | None => _generateKey
  end.

(** ** reset *)

Definition reset : M TextStyle unit :=
  for_each (entries defaultTextStyle) assign.

(** ** convertV7Tov8Style

    The function updates its argument in place; [fresh] is the first
    unused object reference, from which the objects it allocates are
    numbered. *)

(** [oldStyle.fillGradientStops[index] ?? index / fills.length]; reading
    an index of [undefined] throws. *)
Definition stop_ratio (stops : option (list number)) (index len : nat) : Completion number :=
  match stops with
  | None => Throw (TypeError "Cannot read properties of undefined")
  | Some l =>
      Normal (nullish (nth_error l index)
                (JS.of_Z (Z.of_nat index) / JS.of_Z (Z.of_nat len))%float)
  end.

(** [fills.forEach((number, index) => ...)], from [index] on. *)
Fixpoint add_stops (stops : option (list number)) (len index : nat)
    (fills : list number) (g : FillGradient) : Completion FillGradient :=
  match fills with
  | [] => Normal g
  | color :: rest =>
      match stop_ratio stops index len with
      | Normal ratio => add_stops stops len (S index) rest (addColorStop ratio color g)
      | Throw e => Throw e
      end
  end.

(** [oldStyle.fill.map(color => Color.shared.setValue(color).toNumber())]. *)
Fixpoint map_colors (colors : list ColorSource) : Completion (list number) :=
  match colors with
  | [] => Normal []
  | c :: rest =>
      match Color_toNumber c with
      | Normal n =>
          match map_colors rest with
          | Normal ns => Normal (n :: ns)
          | Throw e => Throw e
          end
      | Throw e => Throw e
      end
  end.

(** ToNumber on [style.fontSize]. *)
Definition fontSize_number (v : option FontSizeInput) : number :=
  match v with
  | None => JS.NaN
  | Some (SizeNumber n) => n
  | Some (SizeString s) => StringToNumber s
  end.

#[warnings="-inexact-float"]
Definition convertV7Tov8Style (fresh : Ref) : M TextStyleOptions unit :=
  oldStyle <- get ;;
  match dropShadow oldStyle with
  | Some (ShadowBool true) =>
      let defaults := defaultDropShadow in
      modify (options_with_dropShadow (ShadowObject (mkPartialDropShadow
        (Some (nullish (dropShadowAlpha oldStyle) (shadow_alpha defaults)))
        (Some (nullish (dropShadowAngle oldStyle) (shadow_angle defaults)))
        (Some (nullish (dropShadowBlur oldStyle) (shadow_blur defaults)))
        (Some (nullish (dropShadowColor oldStyle) (shadow_color defaults)))
        (Some (nullish (dropShadowDistance oldStyle) (shadow_distance defaults))))))
  | _ => ret tt
  end ;;
  match strokeThickness oldStyle with
  | Some thickness =>
      if JS.number_truthy thickness then
        log (Deprecation "strokeThickness is now a part of stroke") ;;
        let color := nullish (stroke oldStyle) RawUndefined in
        modify (options_with_stroke
          (RawStyle (mkFillStyle fresh color None None None (Some thickness))))
      else ret tt
  | None => ret tt
  end ;;
  style <- get ;;
  match fill style with
  | Some (RawArray _ colors) =>
      log (Deprecation "gradient fill is now a fill pattern: `new FillGradient(...)`") ;;
      let gradientFill :=
        mkFillGradient (S fresh) 0%float 0%float 0%float
          (fontSize_number (fontSize style) * 1.7)%float [] in
      fills <- lift (map_colors colors) ;;
      gradientFill <- lift (add_stops (fillGradientStops style) (length fills) 0 fills gradientFill) ;;
      modify (options_with_fill
        (RawStyle (mkFillStyle (S (S fresh)) RawUndefined None None (Some gradientFill) None)))
  | _ => ret tt
  end.

(** ** The constructor *)

(** The instance as [super()] leaves it: no listener, descriptors, raw
    values and key undefined.  The other fields are written by the loop of
    the constructor before anything reads them (the defaults name every
    one of them); what they hold here shows only in the payload of the
    notifications the constructor emits, which have no listener. *)
Definition blank : TextStyle :=
  mkTextStyle None RawUndefined None RawUndefined None (FamilyName "")
    JS.NaN fontStyle_normal fontVariant_normal weight_normal false
    align_left JS.NaN JS.NaN JS.NaN baseline_alphabetic whiteSpace_normal
    false JS.NaN JS.NaN None false [].

(** [new TextStyle(style)].  The v7 members of [style] are also copied
    onto the instance by the loop, as plain properties that no accessor
    of the class reads; they are not kept here. *)
Definition new_TextStyle (fresh : Ref) : M TextStyleOptions TextStyle :=
  convertV7Tov8Style fresh ;;
  style <- get ;;
  let fullStyle := spread defaultTextStyle style in
  on_new blank (for_each (entries fullStyle) assign ;; update).

(** ** clone *)

Definition shadow_input (d : option TextDropShadow) : DropShadowInput :=
  match d with
  | Some x =>
      ShadowObject (mkPartialDropShadow (Some (shadow_alpha x)) (Some (shadow_angle x))
        (Some (shadow_blur x)) (Some (shadow_color x)) (Some (shadow_distance x)))
  | None => ShadowNull
  end.

(** [this._fill] (or [this._stroke]) as [clone] passes it on; an absent
    descriptor is passed as [null]. *)
Definition paint_input (d : option ConvertedFillStyle) : FillStyleInputs :=
  match d with
  | Some x => as_input x
  | None => RawNull
  end.

(** The object literal [clone] passes to the constructor. *)
Definition clone_options (this : TextStyle) : TextStyleOptions :=
  mkOptions
    (Some (_align this))
    (Some (_breakWords this))
    (Some (shadow_input (get_dropShadow this)))
    (Some (paint_input (_fill this)))
    (Some (_fontFamily this))
    (Some (SizeNumber (get_fontSize this)))
    (Some (_fontStyle this))
    (Some (_fontVariant this))
    (Some (_fontWeight this))
    (Some (_leading this))
    (Some (_letterSpacing this))
    (Some (_lineHeight this))
    (Some (_padding this))
    (Some (paint_input (_stroke this)))
    (Some (_textBaseline this))
    None
    (Some (_whiteSpace this))
    (Some (_wordWrap this))
    (Some (_wordWrapWidth this))
    None None None None None None None.

(** The literal has no v7 member, so the constructor allocates nothing
    from the reference it is given. *)
Definition clone : M TextStyle TextStyle :=
  fun this =>
    let '(r, _, t) := new_TextStyle 0 (clone_options this) in (r, this, t).

(** ** destroy *)

(** [TypeOrBool<TextureDestroyOptions>], or a nullish argument. *)
Inductive DestroyOptions :=
  | DestroyBool (b : bool)
  | DestroyObject (texture textureSource : option bool)
  | DestroyNull.

(** [typeof options === 'boolean' ? options : options?.texture]. *)
Definition option_texture (options : DestroyOptions) : option bool :=
  match options with
  | DestroyBool b => Some b
  | DestroyObject texture _ => texture
  | DestroyNull => None
  end.

Definition option_textureSource (options : DestroyOptions) : option bool :=
  match options with
  | DestroyBool b => Some b
  | DestroyObject _ textureSource => textureSource
  | DestroyNull => None
  end.

(** [if (x?.texture) x.texture.destroy(flag)]. *)
Definition destroy_texture_of (t : option Texture) (flag : option bool) : M TextStyle unit :=
  match t with
  | Some x => log (TextureDestroy x flag)
  | None => ret tt
  end.

Definition descriptor_texture (d : option ConvertedFillStyle) : option Texture :=
  match d with
  | Some x => style_texture x
  | None => None
  end.

Definition destroy (options : DestroyOptions) : M TextStyle unit :=
  removeAllListeners ;;
  let destroyTexture := option_texture options in
  (if nullish destroyTexture false then
     let destroyTextureSource := option_textureSource options in
     this <- get ;;
     destroy_texture_of (descriptor_texture (_fill this)) destroyTextureSource ;;
     destroy_texture_of (input_texture (_originalFill this)) destroyTextureSource ;;
     destroy_texture_of (descriptor_texture (_stroke this)) destroyTextureSource ;;
     destroy_texture_of (input_texture (_originalStroke this)) destroyTextureSource
   else ret tt) ;;
  modify (with_fill None) ;;
  modify (with_stroke None) ;;
  set_dropShadow ShadowNull ;;
  modify (with_originalStroke RawNull) ;;
  modify (with_originalFill RawNull).

(** ** Use of an instance over time *)

(** What a caller can do with an instance it holds. *)
Inductive Op :=
  | OpAssign (a : Assignment)
  | OpReset
  | OpReadKey
  | OpOn (l : Listener)
  | OpClone
  | OpDestroy (options : DestroyOptions).

Definition run_op (o : Op) : M TextStyle unit :=
  match o with
  | OpAssign a => assign a
  | OpReset => reset
  | OpReadKey => _ <- styleKey ;; ret tt
  | OpOn l => on l
  | OpClone => _ <- clone ;; ret tt
  | OpDestroy options => destroy options
  end.

(** The instance after a call, whether the call returns or throws (a
    caller may catch the exception and go on). *)
Definition after (o : Op) (s : TextStyle) : TextStyle := final (run_op o s).

(** The instances a program can hold: built by the constructor, then
    used any number of times. *)
Inductive reachable : TextStyle -> Prop :=
  | reachable_new (fresh : Ref) (style : TextStyleOptions) (s : TextStyle) :
      completion (new_TextStyle fresh style) = Normal s -> reachable s
  | reachable_step (o : Op) (s : TextStyle) :
      reachable s -> reachable (after o s).

(** The descriptor in [_fill] is the one the converter gives for the
    retained raw value, unless the converter rejected that value or no
    fill has been converted yet (a new or destroyed instance). *)
Definition fill_coherent (s : TextStyle) : Prop :=
  (_fill s = None /\ (_originalFill s = RawUndefined \/ _originalFill s = RawNull))
  \/ convertFillInputToFillStyle (black_if_zero (_originalFill s)) defaultFillStyle
       = Normal (_fill s)
  \/ exists e,
       convertFillInputToFillStyle (black_if_zero (_originalFill s)) defaultFillStyle
       = Throw e.

(** ** Auxiliary definitions for the statements *)

(** The instance a plain setter leaves: the field written, the key cleared. *)
Definition written (f : TextStyle -> TextStyle) (s : TextStyle) : TextStyle :=
  with_styleKey None (f s).


(** The instance [destroy] leaves. *)
Definition destroyed (s : TextStyle) : TextStyle :=
  with_originalFill RawNull
    (with_originalStroke RawNull
       (written (with_dropShadow None)
          (with_stroke None (with_fill None (with_listeners [] s))))).

(** JavaScript truth of the cached key. *)
Definition cached (s : TextStyle) : option string :=
  match _styleKey s with
  | Some key => if JS.string_truthy key then Some key else None
  | None => None
  end.



(** The v7 inputs of the two migration examples:
    [{ dropShadow: true, dropShadowBlur: 4 }] and
    [{ fill: [0x000000, 0xFFFFFF] }], the array being the object [r]. *)
Definition legacy_shadow_options : TextStyleOptions :=
  mkOptions None None (Some (ShadowBool true)) None None None None None None
    None None None None None None None None None None
    None None (Some 4%float) None None None None.

Definition legacy_fill_options (r : Ref) : TextStyleOptions :=
  options_with_fill
    (RawArray r [ColorNumber 0x000000%float; ColorNumber 0xFFFFFF%float])
    no_options.

(** The same with an explicit stop list,
    [{ fill: [0x000000, 0xFFFFFF], fillGradientStops: stops }]. *)
Definition legacy_fill_options_with_stops (r : Ref) (stops : list number) : TextStyleOptions :=
  mkOptions None None None
    (Some (RawArray r [ColorNumber 0x000000%float; ColorNumber 0xFFFFFF%float]))
    None None None None None None None None None None None None None None None
    None None None None None None (Some stops).

(** The instances used at concrete inputs.  The descriptor of ['black']
    on the modelled default fill template. *)
Definition black_paint : ConvertedFillStyle :=
  mkFillStyle 1 0%float (Some 1%float) (Some 0) None None.

(** [new TextStyle()] with the modelled collaborators. *)
Definition default_style : TextStyle :=
  mkTextStyle (Some black_paint) (RawString "black") None RawNull None
    (FamilyName "Arial") 26%float fontStyle_normal fontVariant_normal
    weight_normal false align_left 0%float 0%float 0%float
    baseline_alphabetic whiteSpace_pre false 100%float 0%float None false [].

(** The instance after [style.trim = true]. *)
Definition trimmed_style : TextStyle := final (set_trim true default_style).

(** What [clone] returns for it: the descriptor of the original is the raw
    fill of the clone, and [trim] is off. *)
Definition trimmed_style_clone : TextStyle :=
  with_originalFill (as_input black_paint) default_style.

(** The assignments that go through the paint converter. *)
Definition is_paint (a : Assignment) : bool :=
  match a with
  | Assign_fill _ | Assign_stroke _ => true
  | _ => false
  end.

(** The number of [update] notifications an assignment that returns
    makes: one, but none when [fill] or [stroke] is given a value [===]
    the raw value it retains. *)
Definition expected_updates (a : Assignment) (s : TextStyle) : nat :=
  match a with
  | Assign_fill v => if strict_eq v (_originalFill s) then 0 else 1
  | Assign_stroke v => if strict_eq v (_originalStroke s) then 0 else 1
  | _ => 1
  end.

(** The paint converter accepts the value an assignment carries. *)
Definition accepted (a : Assignment) : Prop :=
  match a with
  | Assign_fill v =>
      exists d, convertFillInputToFillStyle (black_if_zero v) defaultFillStyle = Normal d
  | Assign_stroke v =>
      exists d, convertFillInputToFillStyle v defaultStrokeStyle = Normal d
  | _ => True
  end.

(** The notifications a run of assignments makes, each counted in the
    state the instance has when its turn comes. *)
Fixpoint planned_updates (l : list Assignment) (s : TextStyle) : nat :=
  match l with
  | [] => 0
  | a :: rest => expected_updates a s + planned_updates rest (final (assign a s))
  end.

(** * Properties of the class *)

(** ** update and the plain setters *)

Lemma update_run (s : TextStyle) :
  update s = (Normal tt, with_styleKey None s, [Update (with_styleKey None s)]).
Proof. reflexivity. Qed.

Lemma plain_setter_run (f : TextStyle -> TextStyle) (s : TextStyle) :
  (modify f ;; update) s = (Normal tt, written f s, [Update (written f s)]).
Proof. reflexivity. Qed.

Lemma set_dropShadow_run (value : DropShadowInput) (s : TextStyle) :
  exists d, set_dropShadow value s
            = (Normal tt, written (with_dropShadow d) s,
               [Update (written (with_dropShadow d) s)]).
Proof.
  destruct value as [|b|p]; eexists; reflexivity.
Qed.

Lemma set_fontSize_run (value : FontSizeInput) (s : TextStyle) :
  let n := match value with SizeString str => JS.parseInt10 str | SizeNumber n => n end in
  set_fontSize value s
  = (Normal tt, written (with_fontSize n) s, [Update (written (with_fontSize n) s)]).
Proof. destruct value; reflexivity. Qed.

(** ** The fill and stroke setters *)

Lemma set_fill_same (value : FillStyleInputs) (s : TextStyle) :
  strict_eq value (_originalFill s) = true ->
  set_fill value s = (Normal tt, s, []).
Proof.
  intros Hsame. unfold set_fill, bind, get. rewrite Hsame. reflexivity.
Qed.

Lemma set_stroke_same (value : FillStyleInputs) (s : TextStyle) :
  strict_eq value (_originalStroke s) = true ->
  set_stroke value s = (Normal tt, s, []).
Proof.
  intros Hsame. unfold set_stroke, bind, get. rewrite Hsame. reflexivity.
Qed.

Lemma set_fill_converted (value : FillStyleInputs) (s : TextStyle)
    (d : option ConvertedFillStyle) :
  strict_eq value (_originalFill s) = false ->
  convertFillInputToFillStyle (black_if_zero value) defaultFillStyle = Normal d ->
  let s' := written (with_fill d) (with_originalFill value s) in
  set_fill value s = (Normal tt, s', [Update s']).
Proof.
  intros Hnew Hconv. unfold set_fill, bind, get. rewrite Hnew.
  unfold lift, modify. cbn. rewrite Hconv. reflexivity.
Qed.

Lemma set_fill_rejected (value : FillStyleInputs) (s : TextStyle) (e : Error) :
  strict_eq value (_originalFill s) = false ->
  convertFillInputToFillStyle (black_if_zero value) defaultFillStyle = Throw e ->
  set_fill value s = (Throw e, with_originalFill value s, []).
Proof.
  intros Hnew Hconv. unfold set_fill, bind, get. rewrite Hnew.
  unfold lift, modify. cbn. rewrite Hconv. reflexivity.
Qed.

Lemma set_stroke_converted (value : FillStyleInputs) (s : TextStyle)
    (d : option ConvertedFillStyle) :
  strict_eq value (_originalStroke s) = false ->
  convertFillInputToFillStyle value defaultStrokeStyle = Normal d ->
  let s' := written (with_stroke d) (with_originalStroke value s) in
  set_stroke value s = (Normal tt, s', [Update s']).
Proof.
  intros Hnew Hconv. unfold set_stroke, bind, get. rewrite Hnew.
  unfold lift, modify. cbn. rewrite Hconv. reflexivity.
Qed.

Lemma set_stroke_rejected (value : FillStyleInputs) (s : TextStyle) (e : Error) :
  strict_eq value (_originalStroke s) = false ->
  convertFillInputToFillStyle value defaultStrokeStyle = Throw e ->
  set_stroke value s = (Throw e, with_originalStroke value s, []).
Proof.
  intros Hnew Hconv. unfold set_stroke, bind, get. rewrite Hnew.
  unfold lift, modify. cbn. rewrite Hconv. reflexivity.
Qed.



(** ** destroy *)

Lemma destroy_texture_of_run (t : option Texture) (flag : option bool) (s : TextStyle) :
  completion (destroy_texture_of t flag s) = Normal tt
  /\ final (destroy_texture_of t flag s) = s.
Proof. destruct t; split; reflexivity. Qed.

Lemma destroy_leaves (options : DestroyOptions) (s : TextStyle) :
  completion (destroy options s) = Normal tt
  /\ final (destroy options s) = destroyed s.
Proof.
  unfold destroy, removeAllListeners.
  destruct (nullish (option_texture options) false); [|split; reflexivity].
  unfold bind, get, modify, destroy_texture_of, log, ret. cbn beta iota.
  destruct (descriptor_texture (_fill (with_listeners [] s)));
    destruct (input_texture (_originalFill (with_listeners [] s)));
    destruct (descriptor_texture (_stroke (with_listeners [] s)));
    destruct (input_texture (_originalStroke (with_listeners [] s)));
    split; reflexivity.
Qed.

Lemma destroy_destroyed (options : DestroyOptions) (s : TextStyle) :
  destroy options (destroyed s) = (Normal tt, destroyed s, [Update (destroyed s)]).
Proof.
  unfold destroy, removeAllListeners.
  destruct (nullish (option_texture options) false); lazy; reflexivity.
Qed.

(** C9. A second [destroy] returns normally and leaves the instance as the
    first call left it: descriptors, drop shadow and raw values null, no
    listener.  It releases no texture and reaches no listener; its only
    effect is the [emit] of the [dropShadow] setter, on the empty listener
    list. *)
Theorem destroy_twice_is_safe (s : TextStyle) (first second : DestroyOptions) :
  let s1 := final (destroy first s) in
  completion (destroy first s) = Normal tt
  /\ destroy second s1 = (Normal tt, s1, [Update s1])
  /\ texture_destroys (events (destroy second s1)) = []
  /\ deliveries (events (destroy second s1)) = []
  /\ _fill s1 = None /\ _stroke s1 = None /\ _dropShadow s1 = None
  /\ _originalFill s1 = RawNull /\ _originalStroke s1 = RawNull
  /\ _listeners s1 = [].
Proof.
  destruct (destroy_leaves first s) as [Hc Hf].
  cbv zeta. rewrite Hf, destroy_destroyed.
  repeat split; auto.
Qed.

(** ** The derived key *)

Lemma styleKey_dirty (s : TextStyle) :
  cached s = None ->
  styleKey s
  = (Normal (generateTextStyleKey s),
     with_styleKey (Some (generateTextStyleKey s)) s, []).
Proof.
  unfold cached, styleKey, bind, get. intros Hdirty.
  destruct (_styleKey s) as [key|]; [|reflexivity].
  destruct (JS.string_truthy key); [discriminate | reflexivity].
Qed.

Lemma styleKey_cached (s : TextStyle) (key : string) :
  cached s = Some key ->
  styleKey s = (Normal key, s, []).
Proof.
  unfold cached, styleKey, bind, get. intros Hclean.
  destruct (_styleKey s) as [key'|]; [|discriminate].
  destruct (JS.string_truthy key'); [|discriminate].
  injection Hclean as ->. reflexivity.
Qed.

(** The key generator reads the properties, not the cache that holds its
    result. *)
Hypothesis key_ignores_cache :
  forall (s : TextStyle) (k : option string),
    generateTextStyleKey (with_styleKey k s) = generateTextStyleKey s.

(** C2. Reading [styleKey] twice in a row returns the same string.  The
    first read returns the cached key when there is one, and otherwise
    computes the key and stores it; the second read changes nothing.
    This holds in every state of the instance, so after any sequence of
    assignments. *)
Theorem styleKey_read_twice (s : TextStyle) :
  exists key s1,
    styleKey s = (Normal key, s1, [])
    /\ styleKey s1 = (Normal key, s1, [])
    /\ _styleKey s1 = Some key
    /\ (cached s = None ->
        key = generateTextStyleKey s /\ s1 = with_styleKey (Some key) s)
    /\ (forall k, cached s = Some k -> key = k /\ s1 = s).
Proof.
  destruct (cached s) as [k|] eqn:Hc.
  - exists k, s. rewrite (styleKey_cached _ _ Hc).
    split; [reflexivity|]. split; [reflexivity|]. split; [|split].
    + unfold cached in Hc. destruct (_styleKey s) as [k'|]; [|discriminate].
      destruct (JS.string_truthy k'); [|discriminate]. now injection Hc as ->.
    + discriminate.
    + intros k0 Hk. injection Hk as <-. split; reflexivity.
  - set (key := generateTextStyleKey s).
    exists key, (with_styleKey (Some key) s).
    rewrite (styleKey_dirty _ Hc). fold key.
    split; [reflexivity|]. split; [|split; [|split]].
    + set (s1 := with_styleKey (Some key) s).
      destruct (cached s1) as [k|] eqn:Hc1.
      * rewrite (styleKey_cached _ _ Hc1).
        unfold cached, s1 in Hc1. cbn in Hc1.
        destruct (JS.string_truthy key); [|discriminate].
        now injection Hc1 as ->.
      * rewrite (styleKey_dirty _ Hc1). unfold s1.
        rewrite key_ignores_cache. fold key. destruct s; reflexivity.
    + reflexivity.
    + intros _. split; reflexivity.
    + discriminate.
Qed.

(** ** Notifications *)

Lemma updates_app (t1 t2 : list Event) :
  updates (t1 ++ t2) = updates t1 + updates t2.
Proof.
  unfold updates. now rewrite filter_app, length_app.
Qed.

Lemma bind_normal {S A B : Type} (c : M S A) (k : A -> M S B) (s s1 : S)
    (a : A) (t1 : list Event) :
  c s = (Normal a, s1, t1) ->
  bind c k s = (completion (k a s1), final (k a s1), t1 ++ events (k a s1)).
Proof.
  intros Hc. unfold bind. rewrite Hc.
  destruct (k a s1) as [[r s2] t2]. reflexivity.
Qed.

Lemma bind_throw {S A B : Type} (c : M S A) (k : A -> M S B) (s s1 : S)
    (e : Error) (t1 : list Event) :
  c s = (Throw e, s1, t1) ->
  bind c k s = (Throw e, s1, t1).
Proof.
  intros Hc. unfold bind. now rewrite Hc.
Qed.

Lemma assign_plain (a : Assignment) (s : TextStyle) :
  is_paint a = false ->
  exists s', assign a s = (Normal tt, s', [Update s']).
Proof.
  destruct a; cbn; intros Hp; try discriminate;
    try (eexists; reflexivity).
  - destruct (set_dropShadow_run v s) as [d Hd]. eexists. exact Hd.
  - eexists. apply set_fontSize_run.
Qed.

(** What one assignment emits: when it returns, one notification carrying
    the instance as the call leaves it, or none for a skipped [fill] or
    [stroke]; none when the converter throws. *)
Lemma assign_events (a : Assignment) (s : TextStyle) :
  events (assign a s)
  = match completion (assign a s) with
    | Normal _ =>
        if Nat.eqb (expected_updates a s) 1 then [Update (final (assign a s))] else []
    | Throw _ => []
    end.
Proof.
  destruct (is_paint a) eqn:Hp.
  - destruct a; try discriminate; cbn [assign expected_updates].
    + destruct (strict_eq v (_originalFill s)) eqn:Hg.
      * now rewrite (set_fill_same _ _ Hg).
      * destruct (convertFillInputToFillStyle (black_if_zero v) defaultFillStyle)
          as [d|e] eqn:Hc.
        -- now rewrite (set_fill_converted _ _ _ Hg Hc).
        -- now rewrite (set_fill_rejected _ _ _ Hg Hc).
    + destruct (strict_eq v (_originalStroke s)) eqn:Hg.
      * now rewrite (set_stroke_same _ _ Hg).
      * destruct (convertFillInputToFillStyle v defaultStrokeStyle) as [d|e] eqn:Hc.
        -- now rewrite (set_stroke_converted _ _ _ Hg Hc).
        -- now rewrite (set_stroke_rejected _ _ _ Hg Hc).
  - destruct (assign_plain a s Hp) as [s' Hs']. rewrite Hs'.
    destruct a; try discriminate; reflexivity.
Qed.

Lemma assign_accepted (a : Assignment) (s : TextStyle) :
  accepted a ->
  completion (assign a s) = Normal tt
  /\ updates (events (assign a s)) = expected_updates a s.
Proof.
  intros Hacc. destruct (is_paint a) eqn:Hp.
  - destruct a; try discriminate; cbn [assign expected_updates accepted] in *;
      destruct Hacc as [d Hd].
    + destruct (strict_eq v (_originalFill s)) eqn:Hg.
      * now rewrite (set_fill_same _ _ Hg).
      * now rewrite (set_fill_converted _ _ _ Hg Hd).
    + destruct (strict_eq v (_originalStroke s)) eqn:Hg.
      * now rewrite (set_stroke_same _ _ Hg).
      * now rewrite (set_stroke_converted _ _ _ Hg Hd).
  - destruct (assign_plain a s Hp) as [s' Hs']. rewrite Hs'.
    destruct a; try discriminate; split; reflexivity.
Qed.

Lemma for_each_assign_updates (l : list Assignment) :
  Forall accepted l ->
  forall s,
    completion (for_each l assign s) = Normal tt
    /\ updates (events (for_each l assign s)) = planned_updates l s.
Proof.
  induction 1 as [|a rest Ha _ IH]; intros s.
  - split; reflexivity.
  - destruct (assign_accepted a s Ha) as [Hc Hu].
    cbn [for_each planned_updates].
    destruct (assign a s) as [[r s1] t1] eqn:Hrun.
    cbn in Hc, Hu. subst r.
    rewrite (bind_normal _ _ _ _ _ _ Hrun).
    destruct (IH s1) as [Hc1 Hu1].
    unfold completion, final, events in *. cbn [fst snd] in *.
    split; [exact Hc1|].
    rewrite updates_app, Hu1. unfold updates at 1. now rewrite Hu.
Qed.

(** Frame: an assignment to another property leaves the raw paint values. *)
Lemma assign_keeps_originalFill (a : Assignment) (s : TextStyle) :
  (forall v, a <> Assign_fill v) ->
  _originalFill (final (assign a s)) = _originalFill s.
Proof.
  intros Hother. destruct a; try reflexivity.
  - destruct v; reflexivity.
  - now contradiction (Hother v).
  - destruct v; reflexivity.
  - cbn [assign]. destruct (strict_eq v (_originalStroke s)) eqn:Hg.
    + now rewrite (set_stroke_same _ _ Hg).
    + destruct (convertFillInputToFillStyle v defaultStrokeStyle) as [d|e] eqn:Hc.
      * now rewrite (set_stroke_converted _ _ _ Hg Hc).
      * now rewrite (set_stroke_rejected _ _ _ Hg Hc).
Qed.

Lemma assign_keeps_originalStroke (a : Assignment) (s : TextStyle) :
  (forall v, a <> Assign_stroke v) ->
  _originalStroke (final (assign a s)) = _originalStroke s.
Proof.
  intros Hother. destruct a; try reflexivity.
  - destruct v; reflexivity.
  - cbn [assign]. destruct (strict_eq v (_originalFill s)) eqn:Hg.
    + now rewrite (set_fill_same _ _ Hg).
    + destruct (convertFillInputToFillStyle (black_if_zero v) defaultFillStyle)
        as [d|e] eqn:Hc.
      * now rewrite (set_fill_converted _ _ _ Hg Hc).
      * now rewrite (set_fill_rejected _ _ _ Hg Hc).
  - destruct v; reflexivity.
  - now contradiction (Hother v).
Qed.

Lemma reset_planned (s : TextStyle) :
  planned_updates (entries defaultTextStyle) s
  = 17 + expected_updates (Assign_fill (RawString "black")) s
    + expected_updates (Assign_stroke RawNull) s.
Proof.
  cbn [entries defaultTextStyle entry app align breakWords dropShadow fill
       fontFamily fontSize fontStyle fontVariant fontWeight leading
       letterSpacing lineHeight padding stroke textBaseline trim whiteSpace
       wordWrap wordWrapWidth planned_updates].
  cbn [expected_updates].
  rewrite !assign_keeps_originalFill by discriminate.
  rewrite !assign_keeps_originalStroke by discriminate.
  lia.
Qed.

(** C3.  A call to a setter other than [fill] and [stroke] returns and
    emits exactly one [update], carrying the instance as the call leaves
    it.  A call to the [fill] or [stroke] setter emits exactly one when
    the value is not [===] the retained raw value and the converter
    accepts it, and none otherwise.  [reset] assigns the 19 defaults in
    turn and emits one notification for each, except for [fill] when the
    retained raw fill is already ['black'] and for [stroke] when the
    retained raw stroke is already [null]. *)
Theorem update_notifications (s : TextStyle) (a : Assignment)
    (black none : option ConvertedFillStyle) :
  convertFillInputToFillStyle (RawString "black") defaultFillStyle = Normal black ->
  convertFillInputToFillStyle RawNull defaultStrokeStyle = Normal none ->
  events (assign a s)
  = match completion (assign a s) with
    | Normal _ =>
        if Nat.eqb (expected_updates a s) 1 then [Update (final (assign a s))] else []
    | Throw _ => []
    end
  /\ (is_paint a = false ->
      completion (assign a s) = Normal tt /\ updates (events (assign a s)) = 1)
  /\ (accepted a ->
      completion (assign a s) = Normal tt
      /\ updates (events (assign a s)) = expected_updates a s)
  /\ length (entries defaultTextStyle) = 19
  /\ completion (reset s) = Normal tt
  /\ updates (events (reset s))
     = 17 + (if strict_eq (RawString "black") (get_fill s) then 0 else 1)
       + (if strict_eq RawNull (get_stroke s) then 0 else 1).
Proof.
  intros Hblack Hnone.
  split; [apply assign_events|].
  split.
  { intros Hp. destruct (assign_plain a s Hp) as [s' Hs']. rewrite Hs'.
    split; reflexivity. }
  split; [apply assign_accepted|].
  split; [reflexivity|].
  assert (Hall : Forall accepted (entries defaultTextStyle)).
  { repeat constructor; cbn; eauto. }
  destruct (for_each_assign_updates _ Hall s) as [Hc Hu].
  split; [exact Hc|].
  unfold reset. rewrite Hu. apply reset_planned.
Qed.

(** ** The fontSize setter *)








(** ** The descriptor follows the retained raw fill *)

Lemma final_bind {S A B : Type} (c : M S A) (k : A -> M S B) (s : S) :
  final (bind c k s)
  = match completion (c s) with
    | Normal a => final (k a (final (c s)))
    | Throw _ => final (c s)
    end.
Proof.
  unfold bind. destruct (c s) as [[[a|e] s1] t1]; [|reflexivity].
  cbn. destruct (k a s1) as [[r s2] t2]. reflexivity.
Qed.

Lemma fill_coherent_frame (s s' : TextStyle) :
  _fill s' = _fill s -> _originalFill s' = _originalFill s ->
  fill_coherent s -> fill_coherent s'.
Proof.
  unfold fill_coherent. intros -> ->. exact (fun H => H).
Qed.

Lemma assign_keeps_fill (a : Assignment) (s : TextStyle) :
  (forall v, a <> Assign_fill v) ->
  _fill (final (assign a s)) = _fill s.
Proof.
  intros Hother. destruct a; try reflexivity.
  - destruct v; reflexivity.
  - now contradiction (Hother v).
  - destruct v; reflexivity.
  - cbn [assign]. destruct (strict_eq v (_originalStroke s)) eqn:Hg.
    + now rewrite (set_stroke_same _ _ Hg).
    + destruct (convertFillInputToFillStyle v defaultStrokeStyle) as [d|e] eqn:Hc.
      * now rewrite (set_stroke_converted _ _ _ Hg Hc).
      * now rewrite (set_stroke_rejected _ _ _ Hg Hc).
Qed.

Lemma set_fill_coherent (v : FillStyleInputs) (s : TextStyle) :
  fill_coherent s -> fill_coherent (final (set_fill v s)).
Proof.
  intros Hs. destruct (strict_eq v (_originalFill s)) eqn:Hg.
  - now rewrite (set_fill_same _ _ Hg).
  - destruct (convertFillInputToFillStyle (black_if_zero v) defaultFillStyle)
      as [d|e] eqn:Hc.
    + rewrite (set_fill_converted _ _ _ Hg Hc). right; left. exact Hc.
    + rewrite (set_fill_rejected _ _ _ Hg Hc). right; right. now exists e.
Qed.

Lemma assign_fill_coherent (a : Assignment) (s : TextStyle) :
  fill_coherent s -> fill_coherent (final (assign a s)).
Proof.
  intros Hs.
  destruct (is_paint a) eqn:Hp.
  - destruct a; try discriminate.
    + now apply set_fill_coherent.
    + apply (fill_coherent_frame s); [| |exact Hs].
      * now apply assign_keeps_fill.
      * now apply assign_keeps_originalFill.
  - apply (fill_coherent_frame s); [| |exact Hs].
    + apply assign_keeps_fill. intros v ->. discriminate.
    + apply assign_keeps_originalFill. intros v ->. discriminate.
Qed.

Lemma for_each_assign_preserves (P : TextStyle -> Prop) :
  (forall a s, P s -> P (final (assign a s))) ->
  forall l s, P s -> P (final (for_each l assign s)).
Proof.
  intros Hstep. induction l as [|a rest IH]; intros s Hs; [exact Hs|].
  cbn [for_each]. rewrite final_bind.
  destruct (completion (assign a s)); [apply IH|]; now apply Hstep.
Qed.

Lemma styleKey_final (s : TextStyle) :
  exists k, final (styleKey s) = with_styleKey k s.
Proof.
  destruct (cached s) as [k|] eqn:Hc.
  - rewrite (styleKey_cached _ _ Hc). exists (_styleKey s). now destruct s.
  - rewrite (styleKey_dirty _ Hc). now eexists.
Qed.

Lemma clone_final (s : TextStyle) : final (clone s) = s.
Proof.
  unfold clone. now destruct (new_TextStyle 0 (clone_options s)) as [[r o] t].
Qed.

(** The instance the constructor returns is the one its loop and the
    closing [update] leave, started from the blank instance. *)
Lemma new_TextStyle_inv (fresh : Ref) (style : TextStyleOptions) (s : TextStyle) :
  completion (new_TextStyle fresh style) = Normal s ->
  exists style' t,
    (for_each (entries (spread defaultTextStyle style')) assign ;; update) blank
    = (Normal tt, s, t).
Proof.
  unfold new_TextStyle, completion, bind at 1 2, get, on_new.
  destruct (convertV7Tov8Style fresh style) as [[[u|e] style'] t1]; [|discriminate].
  destruct ((for_each (entries (spread defaultTextStyle style')) assign ;; update) blank)
    as [[[[]|e] s2] t2] eqn:Hrun; cbn; [|discriminate].
  intros Hs. injection Hs as <-. now exists style', t2.
Qed.

Lemma blank_fill_coherent : fill_coherent blank.
Proof. left. split; [reflexivity | now left]. Qed.

Lemma after_fill_coherent (o : Op) (s : TextStyle) :
  fill_coherent s -> fill_coherent (after o s).
Proof.
  intros Hs. unfold after. destruct o as [a| | |l| |options]; cbn [run_op].
  - now apply assign_fill_coherent.
  - unfold reset.
    apply for_each_assign_preserves; [apply assign_fill_coherent | exact Hs].
  - unfold bind. destruct (cached s) as [k|] eqn:Hc.
    + now rewrite (styleKey_cached _ _ Hc).
    + rewrite (styleKey_dirty _ Hc). cbn.
      apply (fill_coherent_frame s); auto; now destruct s.
  - exact Hs.
  - rewrite final_bind, clone_final. now destruct (completion (clone s)).
  - destruct (destroy_leaves options s) as [_ ->].
    left. split; [reflexivity | now right].
Qed.

Theorem reachable_fill_coherent (s : TextStyle) :
  reachable s -> fill_coherent s.
Proof.
  induction 1 as [fresh style s Hnew | o s _ IH].
  - destruct (new_TextStyle_inv _ _ _ Hnew) as (style' & t & Hrun).
    assert (Hfinal : s = final ((for_each (entries (spread defaultTextStyle style')) assign
                                 ;; update) blank)) by now rewrite Hrun.
    rewrite Hfinal, final_bind.
    set (s0 := final (for_each (entries (spread defaultTextStyle style')) assign blank)).
    assert (Hs0 : fill_coherent s0).
    { apply for_each_assign_preserves;
        [apply assign_fill_coherent | apply blank_fill_coherent]. }
    destruct (completion (for_each (entries (spread defaultTextStyle style')) assign blank));
      [|exact Hs0].
    apply (fill_coherent_frame s0); auto; now destruct s0.
  - now apply after_fill_coherent.
Qed.

(** ** fill = 0 *)

Lemma zero_eqb_sym (n : number) :
  PrimFloat.eqb 0%float n = PrimFloat.eqb n 0%float.
Proof.
  rewrite !eqb_spec.
  change (Prim2SF 0%float) with (S754_zero false).
  destruct (Prim2SF n) as [sg|sg| |sg m e]; try reflexivity; now destruct sg.
Qed.

(** C10.  On an instance a program can hold, [fill = 0] leaves [0] as the
    retained raw value, the one the getter returns (when the instance
    already retains a zero the assignment is skipped and that zero stays),
    and leaves in [_fill] the descriptor the converter gives for
    ['black']; [fill = 'black'] leaves that same descriptor. *)
Theorem zero_fill_resolves_as_black (s : TextStyle) (d : option ConvertedFillStyle) :
  reachable s ->
  convertFillInputToFillStyle (RawString "black") defaultFillStyle = Normal d ->
  let zero := set_fill (RawNumber 0%float) s in
  let black := set_fill (RawString "black") s in
  completion zero = Normal tt
  /\ strict_eq (RawNumber 0%float) (get_fill (final zero)) = true
  /\ (strict_eq (RawNumber 0%float) (get_fill s) = false ->
      get_fill (final zero) = RawNumber 0%float)
  /\ _fill (final zero) = d
  /\ completion black = Normal tt
  /\ get_fill (final black) = RawString "black"
  /\ _fill (final black) = d.
Proof.
  intros Hreach Hd. pose proof (reachable_fill_coherent s Hreach) as Hinv.
  cbv zeta. unfold get_fill.
  assert (Hzero : completion (set_fill (RawNumber 0%float) s) = Normal tt
                  /\ strict_eq (RawNumber 0%float)
                       (_originalFill (final (set_fill (RawNumber 0%float) s))) = true
                  /\ (strict_eq (RawNumber 0%float) (_originalFill s) = false ->
                      _originalFill (final (set_fill (RawNumber 0%float) s))
                      = RawNumber 0%float)
                  /\ _fill (final (set_fill (RawNumber 0%float) s)) = d).
  { destruct (strict_eq (RawNumber 0%float) (_originalFill s)) eqn:Hg.
    - rewrite (set_fill_same _ _ Hg). cbn.
      split; [reflexivity|]. split; [exact Hg|]. split; [discriminate|].
      destruct (_originalFill s) as [| |str|n|r colors|g|o] eqn:Horig;
        try discriminate.
      assert (Hblack : black_if_zero (RawNumber n) = RawString "black").
      { unfold black_if_zero. cbn in Hg |- *. unfold JS.number_strict_eq in *.
        now rewrite <- zero_eqb_sym, Hg. }
      destruct Hinv as [[_ [Hu|Hu]] | [Hconv | [e Hconv]]];
        rewrite ?Horig in *; try discriminate;
        rewrite Hblack, Hd in Hconv; [now injection Hconv | discriminate].
    - rewrite (set_fill_converted _ _ d Hg Hd). cbn.
      repeat split; reflexivity. }
  assert (Hblack : completion (set_fill (RawString "black") s) = Normal tt
                   /\ _originalFill (final (set_fill (RawString "black") s))
                      = RawString "black"
                   /\ _fill (final (set_fill (RawString "black") s)) = d).
  { destruct (strict_eq (RawString "black") (_originalFill s)) eqn:Hg.
    - rewrite (set_fill_same _ _ Hg). cbn. split; [reflexivity|].
      destruct (_originalFill s) as [| |str|n|r colors|g|o] eqn:Horig;
        try discriminate.
      change (String.eqb "black" str = true) in Hg.
      apply String.eqb_eq in Hg. subst str.
      split; [reflexivity|].
      destruct Hinv as [[_ [Hu|Hu]] | [Hconv | [e Hconv]]];
        rewrite ?Horig in *; try discriminate;
        change (black_if_zero (RawString "black")) with (RawString "black") in Hconv;
        rewrite Hd in Hconv; [now injection Hconv | discriminate].
    - rewrite (set_fill_converted _ _ d Hg Hd). cbn.
      repeat split; reflexivity. }
  tauto.
Qed.

(** ** Migration of v7 options *)

Lemma add_stops_without_list (len index : nat) (color : number)
    (rest : list number) (g : FillGradient) :
  add_stops None len index (color :: rest) g
  = Throw (TypeError "Cannot read properties of undefined").
Proof. reflexivity. Qed.

(** With an array of at least one colour as [fill] and no
    [fillGradientStops] member, the migration does not return. *)
Lemma convertV7Tov8Style_array_without_stops (fresh : Ref) (style : TextStyleOptions)
    (r : Ref) (c : ColorSource) (cs : list ColorSource) :
  fill style = Some (RawArray r (c :: cs)) ->
  fillGradientStops style = None ->
  exists e,
    completion (convertV7Tov8Style fresh style) = Throw e
    /\ (forall ns, map_colors (c :: cs) = Normal ns ->
        e = TypeError "Cannot read properties of undefined").
Proof.
  intros Hfill Hstops. unfold convertV7Tov8Style, completion.
  unfold bind, get, modify, log, lift, ret. cbn beta iota.
  destruct (dropShadow style) as [[|[|]|p]|];
    (destruct (strokeThickness style) as [th|];
     [destruct (JS.number_truthy th)|]);
    cbn; rewrite Hfill; cbn [map_colors];
    (destruct (Color_toNumber c) as [n|e];
     [destruct (map_colors cs) as [ns|e]|]); cbn; rewrite ?Hstops; cbn;
    eexists; (split; [reflexivity|]); intros ns' Hns; congruence.
Qed.

(** C4.  [new TextStyle({ fill: [0x000000, 0xFFFFFF] })] does not return:
    with no [fillGradientStops] member the lookup
    [oldStyle.fillGradientStops[index]] is made on [undefined] and throws
    a [TypeError] as soon as the two colours are converted, before any
    stop is added. *)
Theorem legacy_fill_array_throws (fresh r : Ref) :
  exists e,
    completion (new_TextStyle fresh (legacy_fill_options r)) = Throw e
    /\ (forall n0 n1,
          Color_toNumber (ColorNumber 0x000000%float) = Normal n0 ->
          Color_toNumber (ColorNumber 0xFFFFFF%float) = Normal n1 ->
          e = TypeError "Cannot read properties of undefined").
Proof.
  destruct (convertV7Tov8Style_array_without_stops fresh (legacy_fill_options r) r
              (ColorNumber 0x000000%float) [ColorNumber 0xFFFFFF%float]
              eq_refl eq_refl) as (e & He & Hkind).
  exists e. split.
  - unfold new_TextStyle, completion in *.
    destruct (convertV7Tov8Style fresh (legacy_fill_options r)) as [[c style'] t] eqn:Hrun.
    cbn in He. subst c. now rewrite (bind_throw _ _ _ _ _ _ Hrun).
  - intros n0 n1 H0 H1. apply (Hkind [n0; n1]). cbn. now rewrite H0, H1.
Qed.

(** With an explicit, empty stop list the fallback is reached: the two
    stops get the ratios [0] and [0.5], index over count. *)
Lemma legacy_fill_array_with_empty_stops (fresh r : Ref) (n0 n1 : number) :
  Color_toNumber (ColorNumber 0x000000%float) = Normal n0 ->
  Color_toNumber (ColorNumber 0xFFFFFF%float) = Normal n1 ->
  exists g,
    completion (convertV7Tov8Style fresh (legacy_fill_options_with_stops r [])) = Normal tt
    /\ fill (final (convertV7Tov8Style fresh (legacy_fill_options_with_stops r [])))
       = Some (RawStyle (mkFillStyle (S (S fresh)) RawUndefined None None (Some g) None))
    /\ gradientStops g = [(0%float, n0); (0.5%float, n1)].
Proof.
  intros H0 H1. unfold convertV7Tov8Style, completion, final.
  unfold bind, get, modify, log, lift, ret. cbn. rewrite H0, H1. cbn.
  eexists. split; [reflexivity|]. split; reflexivity.
Qed.

(** C5.  [new TextStyle({ dropShadow: true, dropShadowBlur: 4 })] returns
    an instance whose drop shadow has [blur = 4] and the [alpha], [angle],
    [color] and [distance] of [defaultDropShadow] (provided the converter
    accepts the default fill and stroke). *)
Theorem legacy_dropShadow_blur (fresh : Ref) (black none : option ConvertedFillStyle) :
  convertFillInputToFillStyle (RawString "black") defaultFillStyle = Normal black ->
  convertFillInputToFillStyle RawNull defaultStrokeStyle = Normal none ->
  exists s,
    completion (new_TextStyle fresh legacy_shadow_options) = Normal s
    /\ get_dropShadow s
       = Some (mkDropShadow (shadow_alpha defaultDropShadow)
                 (shadow_angle defaultDropShadow) 4%float
                 (shadow_color defaultDropShadow)
                 (shadow_distance defaultDropShadow)).
Proof.
  intros Hblack Hnone. unfold new_TextStyle, completion.
  lazy. rewrite Hblack. lazy. rewrite Hnone. lazy.
  eexists. split; reflexivity.
Qed.

End TextStyleClass.

(** * The class with the modelled collaborators *)

Notation "'model_new'" :=
  (new_TextStyle Model.convertFillInputToFillStyle Model.defaultFillStyle
     Model.defaultStrokeStyle Model.Color_toNumber Model.StringToNumber).

Notation "'model_assign'" :=
  (assign Model.convertFillInputToFillStyle Model.defaultFillStyle
     Model.defaultStrokeStyle).

Notation "'model_set_fill'" :=
  (set_fill Model.convertFillInputToFillStyle Model.defaultFillStyle).

Notation "'model_set_stroke'" :=
  (set_stroke Model.convertFillInputToFillStyle Model.defaultStrokeStyle).

Notation "'model_reset'" :=
  (reset Model.convertFillInputToFillStyle Model.defaultFillStyle
     Model.defaultStrokeStyle).

Notation "'model_styleKey'" := (styleKey Model.generateTextStyleKey).

Notation "'model_clone'" :=
  (clone Model.convertFillInputToFillStyle Model.defaultFillStyle
     Model.defaultStrokeStyle Model.Color_toNumber Model.StringToNumber).

Notation "'model_reachable'" :=
  (reachable Model.convertFillInputToFillStyle Model.defaultFillStyle
     Model.defaultStrokeStyle Model.generateTextStyleKey Model.Color_toNumber
     Model.StringToNumber).


Lemma default_style_reachable : model_reachable default_style.
Proof.
  apply (reachable_new Model.convertFillInputToFillStyle Model.defaultFillStyle
           Model.defaultStrokeStyle Model.generateTextStyleKey Model.Color_toNumber
           Model.StringToNumber 0 no_options).
  vm_compute. reflexivity.
Qed.

Lemma model_key_ignores_cache (s : TextStyle) (k : option string) :
  Model.generateTextStyleKey (with_styleKey k s) = Model.generateTextStyleKey s.
Proof. reflexivity. Qed.

(** * Properties of the modelled key *)

(** ** Strings joined by a separator *)






Section KeyProperties.

Variable convertFillInputToFillStyle :
  FillStyleInputs -> ConvertedFillStyle -> Completion (option ConvertedFillStyle).
Variable defaultFillStyle : ConvertedFillStyle.
Variable defaultStrokeStyle : ConvertedFillStyle.
Variable Color_toNumber : ColorSource -> Completion number.
Variable StringToNumber : string -> number.

Local Notation "'new_style'" :=
  (new_TextStyle convertFillInputToFillStyle defaultFillStyle defaultStrokeStyle
     Color_toNumber StringToNumber).
Local Notation "'assign_to'" :=
  (assign convertFillInputToFillStyle defaultFillStyle defaultStrokeStyle).
Local Notation "'key_of'" := (styleKey Model.generateTextStyleKey).




(** The constructor returns an instance whose key is cleared. *)
Lemma new_key_cleared (fresh : Ref) (style : TextStyleOptions) (s : TextStyle) :
  completion (new_style fresh style) = Normal s -> _styleKey s = None.
Proof.
  intros Hnew.
  destruct (new_TextStyle_inv _ _ _ _ _ _ _ _ Hnew) as (style' & t & Hrun).
  unfold bind in Hrun.
  destruct (for_each (entries (spread defaultTextStyle style')) assign_to blank)
    as [[[[]|e] s0] t0]; cbn in Hrun; [|discriminate].
  injection Hrun as <- _. reflexivity.
Qed.



(** ** clone and trim *)

Local Notation "'clone_of'" :=
  (clone convertFillInputToFillStyle defaultFillStyle defaultStrokeStyle
     Color_toNumber StringToNumber).

Lemma assign_trim_effect (a : Assignment) (s : TextStyle) :
  completion (assign_to a s) = Normal tt ->
  _trim (final (assign_to a s))
  = match a with Assign_trim v => v | _ => _trim s end.
Proof.
  intros Hdone. destruct (is_paint a) eqn:Hp.
  - destruct a; try discriminate; cbn [assign] in *.
    + destruct (strict_eq v (_originalFill s)) eqn:Hg.
      * now rewrite (set_fill_same _ _ _ _ Hg).
      * destruct (convertFillInputToFillStyle (black_if_zero v) defaultFillStyle)
          as [d|e] eqn:Hc.
        -- now rewrite (set_fill_converted _ _ _ _ _ Hg Hc).
        -- now rewrite (set_fill_rejected _ _ _ _ _ Hg Hc) in Hdone.
    + destruct (strict_eq v (_originalStroke s)) eqn:Hg.
      * now rewrite (set_stroke_same _ _ _ _ Hg).
      * destruct (convertFillInputToFillStyle v defaultStrokeStyle) as [d|e] eqn:Hc.
        -- now rewrite (set_stroke_converted _ _ _ _ _ Hg Hc).
        -- now rewrite (set_stroke_rejected _ _ _ _ _ Hg Hc) in Hdone.
  - destruct a; try discriminate; try reflexivity; destruct v; reflexivity.
Qed.

(** After a loop of assignments that returns, [trim] holds the value of
    the last assignment to it. *)
Lemma for_each_trim (l : list Assignment) (s : TextStyle) :
  completion (for_each l assign_to s) = Normal tt ->
  _trim (final (for_each l assign_to s))
  = fold_left (fun t a => match a with Assign_trim v => v | _ => t end) l (_trim s).
Proof.
  revert s. induction l as [|a rest IH]; intros s Hdone; [reflexivity|].
  cbn [for_each fold_left] in *.
  destruct (assign_to a s) as [[[[]|e] s1] t1] eqn:Hrun.
  - rewrite (bind_normal _ _ _ _ _ _ Hrun) in *. cbn in Hdone |- *.
    rewrite (IH s1 Hdone). f_equal.
    pose proof (assign_trim_effect a s) as Heff. rewrite Hrun in Heff.
    now apply Heff.
  - now rewrite (bind_throw _ _ _ _ _ _ Hrun) in Hdone.
Qed.

(** The literal [clone] builds has no v7 member: the migration leaves it
    as it is. *)
Lemma clone_options_not_migrated (fresh : Ref) (s : TextStyle) :
  convertV7Tov8Style Color_toNumber StringToNumber fresh (clone_options s)
  = (Normal tt, clone_options s, []).
Proof.
  unfold convertV7Tov8Style, bind, get, modify, log, lift, ret.
  destruct s as [f rawf st raws ds]. destruct ds, f; reflexivity.
Qed.

(** Whatever the instance, its clone has [trim] off: [clone] does not pass
    [trim] to the constructor, which then takes the default. *)
Lemma clone_trim_is_default (s c : TextStyle) :
  completion (clone_of s) = Normal c -> _trim c = false.
Proof.
  unfold clone, completion. intros Hclone.
  assert (Hnew : completion (new_style 0 (clone_options s)) = Normal c).
  { unfold completion.
    now destruct (new_style 0 (clone_options s)) as [[r o] t]. }
  clear Hclone. unfold new_TextStyle, completion in Hnew.
  rewrite (bind_normal _ _ _ _ _ _ (clone_options_not_migrated 0 s)) in Hnew.
  unfold bind at 1, get, on_new in Hnew. cbn [fst snd completion] in Hnew.
  set (l := entries (spread defaultTextStyle (clone_options s))) in *.
  destruct ((for_each l assign_to ;; update) blank) as [[[[]|e] s1] t1] eqn:Hrun;
    cbn in Hnew; [|discriminate].
  injection Hnew as <-.
  unfold bind in Hrun.
  destruct (for_each l assign_to blank) as [[[[]|e] s0] t0] eqn:Hloop;
    cbn in Hrun; [|discriminate].
  injection Hrun as <- _. cbn.
  pose proof (for_each_trim l blank) as Htrim. rewrite Hloop in Htrim.
  cbn [completion final fst snd] in Htrim. rewrite (Htrim eq_refl).
  unfold l. destruct s; reflexivity.
Qed.

End KeyProperties.

(** * The statements at concrete inputs *)

Lemma model_clone_trimmed :
  completion (model_clone trimmed_style) = Normal trimmed_style_clone.
Proof. vm_compute. reflexivity. Qed.


(** C8.  [clone] does not copy [trim]: the clone of an instance with
    [trim] on has [trim] off, and the modelled key, which renders every
    property, differs between the two at the moment of cloning. *)
Theorem clone_forgets_trim :
  _trim trimmed_style = true
  /\ exists c,
       completion (model_clone trimmed_style) = Normal c
       /\ _trim c = false
       /\ completion (model_styleKey c) <> completion (model_styleKey trimmed_style).
Proof.
  split; [reflexivity|].
  exists trimmed_style_clone. split; [exact model_clone_trimmed|].
  split; [reflexivity|].
  vm_compute. discriminate.
Qed.


(** Assigning to [fill] the value it already retains emits nothing, and
    [reset] on a default instance emits 17 notifications for 19
    properties. *)
Lemma skipped_fill_emits_nothing :
  updates (events (model_set_fill (RawString "black") default_style)) <> 1
  /\ updates (events (model_reset default_style))
     <> length (entries defaultTextStyle).
Proof.
  split; vm_compute; discriminate.
Qed.



Lemma styleKey_read_twice_witness :
  exists key s1,
    model_styleKey default_style = (Normal key, s1, [])
    /\ model_styleKey s1 = (Normal key, s1, []).
Proof.
  destruct (styleKey_read_twice Model.generateTextStyleKey model_key_ignores_cache
              default_style) as (key & s1 & Hfirst & Hsecond & _).
  exists key, s1. split; assumption.
Defined.

Lemma update_notifications_witness :
  updates (events (model_assign (Assign_align align_center) default_style)) = 1
  /\ updates (events (model_reset default_style)) = 17.
Proof.
  destruct (update_notifications Model.convertFillInputToFillStyle
              Model.defaultFillStyle Model.defaultStrokeStyle default_style
              (Assign_align align_center) (Some black_paint) None eq_refl eq_refl)
    as (_ & Hplain & _ & _ & _ & Hreset).
  split; [now apply Hplain | exact Hreset].
Defined.

Lemma legacy_dropShadow_blur_witness :
  exists s,
    completion (model_new 0 legacy_shadow_options) = Normal s
    /\ get_dropShadow s
       = Some (mkDropShadow (shadow_alpha defaultDropShadow)
                 (shadow_angle defaultDropShadow) 4%float
                 (shadow_color defaultDropShadow)
                 (shadow_distance defaultDropShadow)).
Proof.
  exact (legacy_dropShadow_blur Model.convertFillInputToFillStyle
           Model.defaultFillStyle Model.defaultStrokeStyle Model.Color_toNumber
           Model.StringToNumber 0 (Some black_paint) None eq_refl eq_refl).
Defined.



Lemma zero_fill_resolves_as_black_witness :
  get_fill (final (model_set_fill (RawNumber 0%float) default_style)) = RawNumber 0%float
  /\ _fill (final (model_set_fill (RawNumber 0%float) default_style)) = Some black_paint
  /\ _fill (final (model_set_fill (RawString "black") default_style)) = Some black_paint.
Proof.
  destruct (zero_fill_resolves_as_black Model.convertFillInputToFillStyle
              Model.defaultFillStyle Model.defaultStrokeStyle
              Model.generateTextStyleKey Model.Color_toNumber Model.StringToNumber
              default_style (Some black_paint) default_style_reachable eq_refl)
    as (_ & _ & Hraw & Hzero & _ & _ & Hblack).
  split; [now apply Hraw|]. split; assumption.
Defined.

(** * Further properties of the class *)

(** ** Definitions for the statements *)

(** What the [dropShadow] setter stores for a value, and what the
    [fontSize] setter stores. *)
Definition resolved_shadow (v : DropShadowInput) : option TextDropShadow :=
  match v with
  | ShadowObject p => Some (spread_shadow defaultDropShadow p)
  | ShadowBool b => if b then Some defaultDropShadow else None
  | ShadowNull => None
  end.

Definition resolved_size (v : FontSizeInput) : number :=
  match v with
  | SizeString s => JS.parseInt10 s
  | SizeNumber n => n
  end.

(** The field a setter other than [fill] and [stroke] writes. *)
Definition store (a : Assignment) : TextStyle -> TextStyle :=
  match a with
  | Assign_align v => with_align v
  | Assign_breakWords v => with_breakWords v
  | Assign_dropShadow v => with_dropShadow (resolved_shadow v)
  | Assign_fill _ => fun s => s
  | Assign_fontFamily v => with_fontFamily v
  | Assign_fontSize v => with_fontSize (resolved_size v)
  | Assign_fontStyle v => with_fontStyle v
  | Assign_fontVariant v => with_fontVariant v
  | Assign_fontWeight v => with_fontWeight v
  | Assign_leading v => with_leading v
  | Assign_letterSpacing v => with_letterSpacing v
  | Assign_lineHeight v => with_lineHeight v
  | Assign_padding v => with_padding v
  | Assign_stroke _ => fun s => s
  | Assign_textBaseline v => with_textBaseline v
  | Assign_trim v => with_trim v
  | Assign_whiteSpace v => with_whiteSpace v
  | Assign_wordWrap v => with_wordWrap v
  | Assign_wordWrapWidth v => with_wordWrapWidth v
  end.

(** Options that carry one of the three v7 shapes the migration rewrites:
    [dropShadow: true], a truthy [strokeThickness], an array [fill]. *)
Definition has_v7_shape (o : TextStyleOptions) : bool :=
  match dropShadow o with Some (ShadowBool true) => true | _ => false end
  || match strokeThickness o with Some t => JS.number_truthy t | None => false end
  || match fill o with Some (RawArray _ _) => true | _ => false end.

(** The shapes for which the migration reports a deprecation. *)
Definition has_thickness (o : TextStyleOptions) : bool :=
  match strokeThickness o with Some t => JS.number_truthy t | None => false end.

Definition has_array_fill (o : TextStyleOptions) : bool :=
  match fill o with Some (RawArray _ _) => true | _ => false end.

(** The ratio of the stop at [index]: the explicit entry when the list
    has one there, [index / len] otherwise. *)
Definition stop_at (stops : list number) (len index : nat) : number :=
  nullish (nth_error stops index)
    (JS.of_Z (Z.of_nat index) / JS.of_Z (Z.of_nat len))%float.

(** The instance the constructor builds from migrated options [o] and
    the two converted descriptors: each property is the member of [o]
    when present and the default otherwise. *)
Definition built (o : TextStyleOptions) (paint line : option ConvertedFillStyle) : TextStyle :=
  mkTextStyle
    paint (nullish (fill o) (RawString "black"))
    line (nullish (stroke o) RawNull)
    (resolved_shadow (nullish (dropShadow o) ShadowNull))
    (nullish (fontFamily o) (FamilyName "Arial"))
    (resolved_size (nullish (fontSize o) (SizeNumber 26%float)))
    (nullish (fontStyle o) fontStyle_normal)
    (nullish (fontVariant o) fontVariant_normal)
    (nullish (fontWeight o) weight_normal)
    (nullish (breakWords o) false)
    (nullish (align o) align_left)
    (nullish (leading o) 0%float)
    (nullish (letterSpacing o) 0%float)
    (nullish (lineHeight o) 0%float)
    (nullish (textBaseline o) baseline_alphabetic)
    (nullish (whiteSpace o) whiteSpace_pre)
    (nullish (wordWrap o) false)
    (nullish (wordWrapWidth o) 100%float)
    (nullish (padding o) 0%float)
    None
    (nullish (trim o) false)
    [].

(** Two instances with the same stored property values: everything but
    the cached key, the listeners and the retained raw paint values. *)
Definition same_stored (s s' : TextStyle) : Prop :=
  with_styleKey None (with_listeners [] (with_originalFill RawNull
    (with_originalStroke RawNull s)))
  = with_styleKey None (with_listeners [] (with_originalFill RawNull
      (with_originalStroke RawNull s'))).

(** Options used as examples: [{ align: 'center', fontSize: '30px' }] and
    [{ stroke: 'red', strokeThickness: 2 }]. *)
Definition centered_options : TextStyleOptions :=
  mkOptions (Some align_center) None None None None (Some (SizeString "30px"))
    None None None None None None None None None None None None None
    None None None None None None None.

Definition thick_stroke_options : TextStyleOptions :=
  mkOptions None None None None None None None None None None None None None
    (Some (RawString "red")) None None None None None
    None None None None None (Some 2%float) None.

(** A computation that returns and leaves the object as [s']. *)
Definition runs_to {S : Type} (c : M S unit) (s s' : S) : Prop :=
  completion (c s) = Normal tt /\ final (c s) = s'.

(** The clone of an instance, given the two descriptors the converter
    returns for the descriptors of the original: every property but
    [trim], no listener, a cleared key. *)
Definition copy_of (s : TextStyle) (paint line : option ConvertedFillStyle) : TextStyle :=
  mkTextStyle paint (paint_input (_fill s)) line (paint_input (_stroke s))
    (_dropShadow s) (_fontFamily s) (_fontSize s) (_fontStyle s)
    (_fontVariant s) (_fontWeight s) (_breakWords s) (_align s) (_leading s)
    (_letterSpacing s) (_lineHeight s) (_textBaseline s) (_whiteSpace s)
    (_wordWrap s) (_wordWrapWidth s) (_padding s) None false [].

Section FurtherProperties.

Variable convertFillInputToFillStyle :
  FillStyleInputs -> ConvertedFillStyle -> Completion (option ConvertedFillStyle).
Variable defaultFillStyle : ConvertedFillStyle.
Variable defaultStrokeStyle : ConvertedFillStyle.
Variable generateTextStyleKey : TextStyle -> string.
Variable Color_toNumber : ColorSource -> Completion number.
Variable StringToNumber : string -> number.

Local Notation "'new_style'" :=
  (new_TextStyle convertFillInputToFillStyle defaultFillStyle defaultStrokeStyle
     Color_toNumber StringToNumber).
Local Notation "'assign_to'" :=
  (assign convertFillInputToFillStyle defaultFillStyle defaultStrokeStyle).
Local Notation "'fill_set'" :=
  (set_fill convertFillInputToFillStyle defaultFillStyle).
Local Notation "'stroke_set'" :=
  (set_stroke convertFillInputToFillStyle defaultStrokeStyle).
Local Notation "'reset_all'" :=
  (reset convertFillInputToFillStyle defaultFillStyle defaultStrokeStyle).
Local Notation "'migrate'" := (convertV7Tov8Style Color_toNumber StringToNumber).
Local Notation "'clone_of'" :=
  (clone convertFillInputToFillStyle defaultFillStyle defaultStrokeStyle
     Color_toNumber StringToNumber).
Local Notation "'key_read'" := (styleKey generateTextStyleKey).
Local Notation "'can_hold'" :=
  (reachable convertFillInputToFillStyle defaultFillStyle defaultStrokeStyle
     generateTextStyleKey Color_toNumber StringToNumber).
Local Notation "'then_'" :=
  (after convertFillInputToFillStyle defaultFillStyle defaultStrokeStyle
     generateTextStyleKey Color_toNumber StringToNumber).

(** The descriptor in [_stroke] is the one the converter gives for the
    retained raw stroke, unless the converter rejected that value or no
    stroke has been converted yet. *)
Definition stroke_coherent (s : TextStyle) : Prop :=
  (_stroke s = None
   /\ (_originalStroke s = RawUndefined \/ _originalStroke s = RawNull))
  \/ convertFillInputToFillStyle (_originalStroke s) defaultStrokeStyle
     = Normal (_stroke s)
  \/ exists e,
       convertFillInputToFillStyle (_originalStroke s) defaultStrokeStyle = Throw e.

(** The cached key, when there is one, is the key of the current state. *)
Definition key_fresh (s : TextStyle) : Prop :=
  forall k, _styleKey s = Some k -> k = generateTextStyleKey s.

(** ** Setters *)

Lemma assign_plain_run (a : Assignment) (s : TextStyle) :
  is_paint a = false ->
  assign_to a s
  = (Normal tt, written (store a) s, [Update (written (store a) s)]).
Proof.
  destruct a; intros Hp; try discriminate; try reflexivity;
    destruct v; reflexivity.
Qed.


(** X2.  Giving the [dropShadow] setter the value its getter returns
    stores the same drop shadow again: the instance is as before, with
    the cached key cleared. *)
Theorem dropShadow_round_trip (s : TextStyle) :
  let again := set_dropShadow (shadow_input (get_dropShadow s)) s in
  completion again = Normal tt
  /\ final again = with_styleKey None s
  /\ get_dropShadow (final again) = get_dropShadow s.
Proof.
  destruct s as [f rf st rs [[al an bl co di]|]]; cbn; repeat split; reflexivity.
Qed.

(** ** destroy *)

(** The textures held by the four paint fields, in the order [destroy]
    visits them. *)
Lemma destroy_textures (options : DestroyOptions) (s : TextStyle) :
  texture_destroys (events (destroy options s))
  = if nullish (option_texture options) false
    then map (fun t => (t, option_textureSource options))
           (flat_map (fun o => match o with Some t => [t] | None => [] end)
              [descriptor_texture (_fill s); input_texture (_originalFill s);
               descriptor_texture (_stroke s); input_texture (_originalStroke s)])
    else [].
Proof.
  unfold destroy, removeAllListeners.
  destruct (nullish (option_texture options) false); [|reflexivity].
  unfold bind, get, modify, destroy_texture_of, log, ret. cbn beta iota.
  replace (_fill (with_listeners [] s)) with (_fill s) by now destruct s.
  replace (_originalFill (with_listeners [] s)) with (_originalFill s) by now destruct s.
  replace (_stroke (with_listeners [] s)) with (_stroke s) by now destruct s.
  replace (_originalStroke (with_listeners [] s)) with (_originalStroke s)
    by now destruct s.
  destruct (descriptor_texture (_fill s)), (input_texture (_originalFill s)),
    (descriptor_texture (_stroke s)), (input_texture (_originalStroke s));
    reflexivity.
Qed.

Lemma destroy_deliveries (options : DestroyOptions) (s : TextStyle) :
  deliveries (events (destroy options s)) = [].
Proof.
  unfold destroy, removeAllListeners.
  destruct (nullish (option_texture options) false); [|reflexivity].
  unfold bind, get, modify, destroy_texture_of, log, ret. cbn beta iota.
  destruct (descriptor_texture (_fill (with_listeners [] s))),
    (input_texture (_originalFill (with_listeners [] s))),
    (descriptor_texture (_stroke (with_listeners [] s))),
    (input_texture (_originalStroke (with_listeners [] s)));
    reflexivity.
Qed.

(** X3.  [destroy] reaches no listener, whatever its argument: the
    listeners are removed before the [dropShadow] setter emits.  It
    destroys a texture only when the argument is [true] or an object with
    a truthy [texture]; then every texture found in [_fill],
    [_originalFill], [_stroke] and [_originalStroke] is destroyed, once
    for each field that holds it, with the [textureSource] flag. *)
Theorem destroy_releases_on_request (options : DestroyOptions) (s : TextStyle) :
  deliveries (events (destroy options s)) = []
  /\ (nullish (option_texture options) false = false ->
      texture_destroys (events (destroy options s)) = [])
  /\ (nullish (option_texture options) false = true ->
      texture_destroys (events (destroy options s))
      = map (fun t => (t, option_textureSource options))
          (flat_map (fun o => match o with Some t => [t] | None => [] end)
             [descriptor_texture (_fill s); input_texture (_originalFill s);
              descriptor_texture (_stroke s); input_texture (_originalStroke s)])).
Proof.
  split; [apply destroy_deliveries|].
  split; intros Hreq; rewrite destroy_textures, Hreq; reflexivity.
Qed.

(** ** Migration of v7 options *)

(** X4.  Options with none of the three v7 shapes pass through the
    migration untouched: it returns, changes no member and reports no
    deprecation. *)
Theorem migration_leaves_v8_options (fresh : Ref) (style : TextStyleOptions) :
  has_v7_shape style = false ->
  migrate fresh style = (Normal tt, style, []).
Proof.
  unfold has_v7_shape. intros Hshape.
  apply orb_false_elim in Hshape as [Hshape Hfill].
  apply orb_false_elim in Hshape as [Hshadow Hthick].
  unfold convertV7Tov8Style, bind, get, modify, log, lift, ret.
  destruct (dropShadow style) as [[|[|]|p]|]; try discriminate;
    (destruct (strokeThickness style) as [t|];
     [rewrite Hthick|]);
    cbn; destruct (fill style) as [[]|]; try discriminate; reflexivity.
Qed.

(** X5.  The migration reports a deprecation for a truthy
    [strokeThickness] and for an array [fill], in this order, and none
    for [dropShadow: true]; it emits nothing else.  The notice for the
    fill is reported also when the migration then throws. *)
Theorem migration_notices (fresh : Ref) (style : TextStyleOptions) :
  events (migrate fresh style)
  = (if has_thickness style
     then [Deprecation "strokeThickness is now a part of stroke"] else [])
    ++ (if has_array_fill style
        then [Deprecation "gradient fill is now a fill pattern: `new FillGradient(...)`"]
        else []).
Proof.
  unfold has_thickness, has_array_fill, convertV7Tov8Style, events.
  unfold bind, get, modify, log, lift, ret.
  destruct (dropShadow style) as [[|[|]|p]|];
    (destruct (strokeThickness style) as [t|];
     [destruct (JS.number_truthy t)|]);
    cbn; (destruct (fill style) as [[| | | |r colors| |]|]; cbn; try reflexivity);
    (destruct (map_colors Color_toNumber colors) as [ns|e]; cbn; [|reflexivity]);
    (destruct (add_stops (fillGradientStops style) (length ns) 0 ns _) as [g|e];
     reflexivity).
Qed.

Lemma migrate_stroke (fresh : Ref) (style : TextStyleOptions) (t : number) :
  strokeThickness style = Some t ->
  JS.number_truthy t = true ->
  stroke (final (migrate fresh style))
  = Some (RawStyle (mkFillStyle fresh (nullish (stroke style) RawUndefined)
                      None None None (Some t)))
  /\ strokeThickness (final (migrate fresh style)) = Some t
  /\ In (Deprecation "strokeThickness is now a part of stroke")
       (events (migrate fresh style)).
Proof.
  intros Hthick Htruthy.
  unfold convertV7Tov8Style, bind, get, modify, log, lift, ret, final, events.
  rewrite Hthick, Htruthy.
  destruct (dropShadow style) as [[|[|]|p]|]; cbn;
    (destruct (fill style) as [[| | | |r colors| |]|]; cbn; rewrite ?Hthick;
     try (split; [reflexivity|]; split; [reflexivity|]; now left));
    (destruct (map_colors Color_toNumber colors) as [ns|e]; cbn; rewrite ?Hthick;
     [|split; [reflexivity|]; split; [reflexivity|]; now left]);
    (destruct (add_stops (fillGradientStops style) (length ns) 0 ns _) as [g|e];
     cbn; rewrite ?Hthick; split; [reflexivity| |reflexivity|];
     (split; [reflexivity|]; now left)).
Qed.

(** X6.  The migration is not idempotent on [strokeThickness]: it leaves
    the member in place, so migrating the same options object again (as
    a second [new TextStyle(options)] does) wraps the stroke once more,
    the [color] of the new stroke being the stroke object of the first
    pass. *)
Theorem migration_twice_nests_stroke (fresh fresh' : Ref) (style : TextStyleOptions)
    (t : number) :
  strokeThickness style = Some t ->
  JS.number_truthy t = true ->
  let once := final (migrate fresh style) in
  let twice := final (migrate fresh' once) in
  let first := mkFillStyle fresh (nullish (stroke style) RawUndefined)
                 None None None (Some t) in
  stroke once = Some (RawStyle first)
  /\ stroke twice
     = Some (RawStyle (mkFillStyle fresh' (RawStyle first) None None None (Some t))).
Proof.
  intros Hthick Htruthy. cbv zeta.
  destruct (migrate_stroke fresh style t Hthick Htruthy) as (Hstroke & Hkept & _).
  split; [exact Hstroke|].
  destruct (migrate_stroke fresh' _ t Hkept Htruthy) as (Hagain & _ & _).
  rewrite Hagain, Hstroke. reflexivity.
Qed.

(** ** Gradient stops of an array fill *)

Lemma map_colors_length (colors : list ColorSource) (ns : list number) :
  map_colors Color_toNumber colors = Normal ns -> length ns = length colors.
Proof.
  revert ns. induction colors as [|c rest IH]; cbn; intros ns Hns.
  - now injection Hns as <-.
  - destruct (Color_toNumber c) as [n|e]; [|discriminate].
    destruct (map_colors Color_toNumber rest) as [ns'|e]; [|discriminate].
    injection Hns as <-. cbn. now rewrite (IH ns').
Qed.

Lemma map_snd_combine {A B : Type} (l : list A) (l' : list B) :
  length l = length l' -> map snd (combine l l') = l'.
Proof.
  revert l'. induction l as [|a l IH]; intros [|b l'] Hlen; try discriminate;
    [reflexivity|].
  cbn. f_equal. apply IH. now injection Hlen.
Qed.

(** With a stop list, the loop over the colours adds one stop for each
    colour, numbered from [index]. *)
Lemma add_stops_with_list (stops : list number) (len : nat) (fills : list number) :
  forall (index : nat) (g : FillGradient),
    add_stops (Some stops) len index fills g
    = Normal (mkFillGradient (gradient_ref g) (gradient_x0 g) (gradient_y0 g)
                (gradient_x1 g) (gradient_y1 g)
                (gradientStops g
                 ++ map (fun p => (stop_at stops len (fst p), snd p))
                      (combine (seq index (length fills)) fills))).
Proof.
  induction fills as [|color rest IH]; intros index g.
  - cbn. rewrite app_nil_r. now destruct g.
  - cbn [add_stops stop_ratio]. fold (stop_at stops len index).
    rewrite IH. cbn. now rewrite <- app_assoc.
Qed.

(** X7.  An array [fill] with a [fillGradientStops] list becomes a
    gradient with one stop for each colour, in order; the ratio of the
    stop at index [i] is the entry [i] of the list when the list has one
    and [i / count] otherwise, so a list shorter than the array is
    completed by even spacing and a longer one is cut.  The gradient runs
    down to 1.7 times the [fontSize] member of the options as given,
    which is [NaN] when the options give none: the default size is merged
    only after the migration. *)
#[warnings="-inexact-float"]
Theorem array_fill_with_stop_list (fresh r : Ref) (style : TextStyleOptions)
    (colors : list ColorSource) (stops ns : list number) :
  fill style = Some (RawArray r colors) ->
  fillGradientStops style = Some stops ->
  map_colors Color_toNumber colors = Normal ns ->
  exists g,
    completion (migrate fresh style) = Normal tt
    /\ fill (final (migrate fresh style))
       = Some (RawStyle (mkFillStyle (S (S fresh)) RawUndefined None None (Some g) None))
    /\ gradient_y1 g = (fontSize_number StringToNumber (fontSize style) * 1.7)%float
    /\ (fontSize style = None -> PrimFloat.is_nan (gradient_y1 g) = true)
    /\ gradientStops g
       = map (fun p => (stop_at stops (length colors) (fst p), snd p))
           (combine (seq 0 (length colors)) ns)
    /\ length (gradientStops g) = length colors
    /\ map snd (gradientStops g) = ns.
Proof.
  intros Hfill Hstops Hns.
  pose proof (map_colors_length _ _ Hns) as Hlen.
  eexists.
  unfold convertV7Tov8Style, completion, final.
  unfold bind, get, modify, log, lift, ret. cbn beta iota.
  assert (Hmap : forall (l : list (nat * number)),
             map snd (map (fun p => (stop_at stops (length colors) (fst p), snd p)) l)
             = map snd l).
  { intros l. rewrite map_map. now apply map_ext. }
  destruct (dropShadow style) as [[|[|]|p]|];
    (destruct (strokeThickness style) as [th|];
     [destruct (JS.number_truthy th)|]);
    cbn; rewrite Hfill; cbn; rewrite Hns; cbn; rewrite Hstops, add_stops_with_list;
    cbn; rewrite Hlen;
    (split; [reflexivity|]; split; [reflexivity|]; split; [reflexivity|]);
    (split; [cbn [gradient_y1]; intros ->; reflexivity|]);
    (split; [reflexivity|]);
    cbn [gradientStops];
    (split;
     [now rewrite length_map, length_combine, length_seq, Hlen, Nat.min_id
     |rewrite Hmap; apply map_snd_combine; now rewrite length_seq]).
Qed.

(** X8.  An array [fill] without a [fillGradientStops] member is migrated
    only when the array is empty; with at least one colour the lookup in
    the absent list throws, once the colours are converted. *)
Theorem array_fill_without_stop_list (fresh r : Ref) (style : TextStyleOptions)
    (colors : list ColorSource) (ns : list number) :
  fill style = Some (RawArray r colors) ->
  fillGradientStops style = None ->
  map_colors Color_toNumber colors = Normal ns ->
  (completion (migrate fresh style) = Normal tt <-> colors = [])
  /\ (colors <> [] ->
      completion (migrate fresh style)
      = Throw (TypeError "Cannot read properties of undefined")).
Proof.
  intros Hfill Hstops Hns.
  pose proof (map_colors_length _ _ Hns) as Hlen.
  unfold convertV7Tov8Style, completion.
  unfold bind, get, modify, log, lift, ret. cbn beta iota.
  destruct colors as [|c rest], ns as [|n ns']; try discriminate;
    (destruct (dropShadow style) as [[|[|]|p]|];
     (destruct (strokeThickness style) as [th|];
      [destruct (JS.number_truthy th)|]);
     cbn [fst snd]; cbn; rewrite Hfill; cbn -[map_colors]; rewrite Hns; cbn;
     rewrite ?Hstops; cbn;
     (split; [split; [intros H; first [reflexivity | discriminate H]
                     | intros H; first [reflexivity | discriminate H]]
             | intros H; first [reflexivity | now contradiction H]])).
Qed.

(** ** The constructor as a merge over the defaults *)

Lemma runs_bind {S : Type} (c : M S unit) (k : unit -> M S unit) (s s1 s2 : S) :
  runs_to c s s1 -> runs_to (k tt) s1 s2 -> runs_to (bind c k) s s2.
Proof.
  unfold runs_to, completion, final, bind. intros [Hc Hf] [Hc' Hf'].
  destruct (c s) as [[r s1'] t1]. cbn in Hc, Hf. subst r s1'.
  destruct (k tt s1) as [[r s2'] t2]. cbn in *. now subst.
Qed.

Lemma runs_for_each_cons {S A : Type} (body : A -> M S unit) (x : A) (l : list A)
    (s s1 s2 : S) :
  runs_to (body x) s s1 -> runs_to (for_each l body) s1 s2 ->
  runs_to (for_each (x :: l) body) s s2.
Proof. intros H1 H2. cbn [for_each]. now apply (runs_bind _ _ _ s1). Qed.

Lemma runs_for_each_nil {S A : Type} (body : A -> M S unit) (s : S) :
  runs_to (for_each [] body) s s.
Proof. split; reflexivity. Qed.

Lemma runs_plain (a : Assignment) (s : TextStyle) :
  is_paint a = false -> runs_to (assign_to a) s (written (store a) s).
Proof.
  intros Hp. unfold runs_to. now rewrite (assign_plain_run a s Hp).
Qed.

Lemma runs_fill (v : FillStyleInputs) (s : TextStyle) (d : option ConvertedFillStyle) :
  strict_eq v (_originalFill s) = false ->
  convertFillInputToFillStyle (black_if_zero v) defaultFillStyle = Normal d ->
  runs_to (assign_to (Assign_fill v)) s (written (with_fill d) (with_originalFill v s)).
Proof.
  intros Hg Hc. unfold runs_to. cbn [assign].
  now rewrite (set_fill_converted _ _ _ _ _ Hg Hc).
Qed.

Lemma runs_fill_skipped (v : FillStyleInputs) (s : TextStyle) :
  strict_eq v (_originalFill s) = true ->
  runs_to (assign_to (Assign_fill v)) s s.
Proof.
  intros Hg. unfold runs_to. cbn [assign]. now rewrite (set_fill_same _ _ _ _ Hg).
Qed.

Lemma runs_stroke (v : FillStyleInputs) (s : TextStyle) (d : option ConvertedFillStyle) :
  strict_eq v (_originalStroke s) = false ->
  convertFillInputToFillStyle v defaultStrokeStyle = Normal d ->
  runs_to (assign_to (Assign_stroke v)) s
    (written (with_stroke d) (with_originalStroke v s)).
Proof.
  intros Hg Hc. unfold runs_to. cbn [assign].
  now rewrite (set_stroke_converted _ _ _ _ _ Hg Hc).
Qed.

Lemma runs_stroke_skipped (v : FillStyleInputs) (s : TextStyle) :
  strict_eq v (_originalStroke s) = true ->
  runs_to (assign_to (Assign_stroke v)) s s.
Proof.
  intros Hg. unfold runs_to. cbn [assign]. now rewrite (set_stroke_same _ _ _ _ Hg).
Qed.

Lemma entry_over {A : Type} (f : A -> Assignment) (d : A) (o : option A) :
  entry f (over (Some d) o) = [f (nullish o d)].
Proof. now destruct o. Qed.

(** The loop of the constructor assigns the 19 properties, each to the
    member given or else to the default. *)
Lemma entries_over_defaults (o : TextStyleOptions) :
  entries (spread defaultTextStyle o)
  = [Assign_align (nullish (align o) align_left);
     Assign_breakWords (nullish (breakWords o) false);
     Assign_dropShadow (nullish (dropShadow o) ShadowNull);
     Assign_fill (nullish (fill o) (RawString "black"));
     Assign_fontFamily (nullish (fontFamily o) (FamilyName "Arial"));
     Assign_fontSize (nullish (fontSize o) (SizeNumber 26%float));
     Assign_fontStyle (nullish (fontStyle o) fontStyle_normal);
     Assign_fontVariant (nullish (fontVariant o) fontVariant_normal);
     Assign_fontWeight (nullish (fontWeight o) weight_normal);
     Assign_leading (nullish (leading o) 0%float);
     Assign_letterSpacing (nullish (letterSpacing o) 0%float);
     Assign_lineHeight (nullish (lineHeight o) 0%float);
     Assign_padding (nullish (padding o) 0%float);
     Assign_stroke (nullish (stroke o) RawNull);
     Assign_textBaseline (nullish (textBaseline o) baseline_alphabetic);
     Assign_trim (nullish (trim o) false);
     Assign_whiteSpace (nullish (whiteSpace o) whiteSpace_pre);
     Assign_wordWrap (nullish (wordWrap o) false);
     Assign_wordWrapWidth (nullish (wordWrapWidth o) 100%float)].
Proof.
  unfold entries, spread.
  cbn [align breakWords dropShadow fill fontFamily fontSize fontStyle
       fontVariant fontWeight leading letterSpacing lineHeight padding stroke
       textBaseline trim whiteSpace wordWrap wordWrapWidth defaultTextStyle].
  rewrite !entry_over. reflexivity.
Qed.

(** Reduce the field assignments and projections of instances. *)
Ltac fields :=
  cbv beta iota delta
    [final completion events fst snd update emit_update bind modify get log
      ret written store built copy_of blank destroyed
      _fill _originalFill _stroke _originalStroke _dropShadow
      _fontFamily _fontSize _fontStyle _fontVariant _fontWeight
      _breakWords _align _leading _letterSpacing _lineHeight
      _textBaseline _whiteSpace _wordWrap _wordWrapWidth _padding
      _styleKey _trim _listeners with_fill with_originalFill
      with_stroke with_originalStroke with_dropShadow with_fontFamily
      with_fontSize with_fontStyle with_fontVariant with_fontWeight
      with_breakWords with_align with_leading with_letterSpacing
      with_lineHeight with_textBaseline with_whiteSpace with_wordWrap
      with_wordWrapWidth with_padding with_styleKey with_trim
      with_listeners].

Ltac run_setters :=
  repeat (eapply runs_for_each_cons;
          [first [apply runs_plain; reflexivity
                 |eapply runs_fill; eassumption
                 |eapply runs_stroke; eassumption
                 |eapply runs_fill_skipped; eassumption
                 |eapply runs_stroke_skipped; eassumption]|]);
  apply runs_for_each_nil.

(** The loop and the closing [update], run on the blank instance. *)
Lemma construct_runs (o : TextStyleOptions) (paint line : option ConvertedFillStyle) :
  strict_eq (nullish (fill o) (RawString "black")) RawUndefined = false ->
  strict_eq (nullish (stroke o) RawNull) RawUndefined = false ->
  convertFillInputToFillStyle (black_if_zero (nullish (fill o) (RawString "black")))
    defaultFillStyle = Normal paint ->
  convertFillInputToFillStyle (nullish (stroke o) RawNull) defaultStrokeStyle
    = Normal line ->
  runs_to (for_each (entries (spread defaultTextStyle o)) assign_to ;; update)
    blank (built o paint line).
Proof.
  intros Hgf Hgs Hcf Hcs. rewrite entries_over_defaults.
  eapply runs_bind.
  - change RawUndefined with (_originalFill blank) in Hgf.
    change RawUndefined with (_originalStroke blank) in Hgs.
    run_setters.
  - split; [reflexivity|]. fields. reflexivity.
Qed.

Lemma new_from_migrated (fresh : Ref) (style o : TextStyleOptions) (t0 : list Event)
    (paint line : option ConvertedFillStyle) :
  migrate fresh style = (Normal tt, o, t0) ->
  strict_eq (nullish (fill o) (RawString "black")) RawUndefined = false ->
  strict_eq (nullish (stroke o) RawNull) RawUndefined = false ->
  convertFillInputToFillStyle (black_if_zero (nullish (fill o) (RawString "black")))
    defaultFillStyle = Normal paint ->
  convertFillInputToFillStyle (nullish (stroke o) RawNull) defaultStrokeStyle
    = Normal line ->
  completion (new_style fresh style) = Normal (built o paint line).
Proof.
  intros Hmig Hgf Hgs Hcf Hcs.
  destruct (construct_runs o paint line Hgf Hgs Hcf Hcs) as [Hdone Hleft].
  unfold new_TextStyle. rewrite (bind_normal _ _ _ _ _ _ Hmig).
  unfold completion, final in *. unfold bind at 1. unfold get, on_new.
  cbn [fst snd].
  destruct ((for_each (entries (spread defaultTextStyle o)) assign_to ;; update) blank)
    as [[r s1] t1].
  cbn in Hdone, Hleft. subst r s1. reflexivity.
Qed.

(** X9.  When the migration returns and the converter accepts the fill
    and the stroke, [new TextStyle(style)] returns the instance whose
    every property is the member of the migrated options when present and
    the default otherwise, with no listener and a cleared key; the
    options object of the caller is left as the migration rewrote it.
    (A [fill] or [stroke] member present with the value [undefined] is
    excluded: the setter takes it for the value already there.) *)
Theorem constructor_merges_over_defaults (fresh : Ref) (style o : TextStyleOptions)
    (t0 : list Event) (paint line : option ConvertedFillStyle) :
  migrate fresh style = (Normal tt, o, t0) ->
  strict_eq (nullish (fill o) (RawString "black")) RawUndefined = false ->
  strict_eq (nullish (stroke o) RawNull) RawUndefined = false ->
  convertFillInputToFillStyle (black_if_zero (nullish (fill o) (RawString "black")))
    defaultFillStyle = Normal paint ->
  convertFillInputToFillStyle (nullish (stroke o) RawNull) defaultStrokeStyle
    = Normal line ->
  completion (new_style fresh style) = Normal (built o paint line)
  /\ final (new_style fresh style) = o.
Proof.
  intros Hmig Hgf Hgs Hcf Hcs.
  split; [now apply (new_from_migrated fresh style o t0)|].
  unfold new_TextStyle. rewrite (bind_normal _ _ _ _ _ _ Hmig).
  unfold final. cbn [fst snd]. unfold bind at 1. unfold get, on_new.
  cbn beta iota.
  now destruct ((for_each (entries (spread defaultTextStyle o)) assign_to ;; update) blank)
    as [[[[]|e] s1] t1].
Qed.

(** ** clone *)

(** X10.  When the converter accepts the two descriptors of an instance as
    raw inputs, [clone] returns an instance with the same drop shadow and
    the same value of every plain property except [trim], which is off;
    the clone has no listener, a cleared key, and retains the descriptors
    of the original as its raw fill and stroke.  The original is left
    unchanged. *)
Theorem clone_copies_all_but_trim (s : TextStyle)
    (paint line : option ConvertedFillStyle) :
  convertFillInputToFillStyle (paint_input (_fill s)) defaultFillStyle = Normal paint ->
  convertFillInputToFillStyle (paint_input (_stroke s)) defaultStrokeStyle
    = Normal line ->
  completion (clone_of s) = Normal (copy_of s paint line)
  /\ final (clone_of s) = s.
Proof.
  intros Hcf Hcs. split; [|apply clone_final].
  assert (Hnew : completion (new_style 0 (clone_options s))
                 = Normal (built (clone_options s) paint line)).
  { apply (new_from_migrated 0 (clone_options s) (clone_options s) []).
    - apply clone_options_not_migrated.
    - cbn. now destruct (_fill s).
    - cbn. now destruct (_stroke s).
    - cbn. destruct (_fill s); exact Hcf.
    - exact Hcs. }
  unfold clone, completion in *.
  destruct (new_style 0 (clone_options s)) as [[r o] t]. cbn in Hnew |- *.
  rewrite Hnew. f_equal.
  destruct s as [f rf st rs [[al an bl co di]|]]; reflexivity.
Qed.

(** ** reset *)

(** A property of instances that the constructor establishes and every
    later call keeps holds of every instance a program can hold. *)
Lemma can_hold_invariant (P : TextStyle -> Prop) :
  P blank ->
  (forall a s, P s -> P (final (assign_to a s))) ->
  (forall k s, P s -> P (with_styleKey k s)) ->
  (forall ls s, P s -> P (with_listeners ls s)) ->
  (forall s, P (destroyed s)) ->
  forall s, can_hold s -> P s.
Proof.
  intros Hblank Hassign Hkey Hlisten Hdestroy.
  induction 1 as [fresh style s Hnew | o s _ IH].
  - destruct (new_TextStyle_inv _ _ _ _ _ _ _ _ Hnew) as (style' & t & Hrun).
    assert (Hfinal : s = final ((for_each (entries (spread defaultTextStyle style'))
                                   assign_to ;; update) blank)) by now rewrite Hrun.
    rewrite Hfinal, final_bind.
    set (s0 := final (for_each (entries (spread defaultTextStyle style')) assign_to blank)).
    assert (Hs0 : P s0)
      by (apply for_each_assign_preserves; [exact Hassign | exact Hblank]).
    destruct (completion (for_each (entries (spread defaultTextStyle style'))
                            assign_to blank)); [|exact Hs0].
    now apply (Hkey None).
  - unfold after. destruct o as [a| | |l| |options]; cbn [run_op].
    + now apply Hassign.
    + unfold reset. now apply for_each_assign_preserves.
    + unfold bind. destruct (cached s) as [k|] eqn:Hc.
      * now rewrite (styleKey_cached _ _ _ Hc).
      * rewrite (styleKey_dirty _ _ Hc). cbn. now apply Hkey.
    + now apply (Hlisten (_listeners s ++ [l])).
    + rewrite final_bind, clone_final. now destruct (completion (clone_of s)).
    + destruct (destroy_leaves options s) as [_ ->]. apply Hdestroy.
Qed.

Lemma assign_stroke_coherent (a : Assignment) (s : TextStyle) :
  stroke_coherent s -> stroke_coherent (final (assign_to a s)).
Proof.
  intros Hs. destruct (is_paint a) eqn:Hp.
  - destruct a; try discriminate; cbn [assign].
    + destruct (strict_eq v (_originalFill s)) eqn:Hg.
      * now rewrite (set_fill_same _ _ _ _ Hg).
      * destruct (convertFillInputToFillStyle (black_if_zero v) defaultFillStyle)
          as [d|e] eqn:Hc.
        -- rewrite (set_fill_converted _ _ _ _ _ Hg Hc). exact Hs.
        -- rewrite (set_fill_rejected _ _ _ _ _ Hg Hc). exact Hs.
    + destruct (strict_eq v (_originalStroke s)) eqn:Hg.
      * now rewrite (set_stroke_same _ _ _ _ Hg).
      * destruct (convertFillInputToFillStyle v defaultStrokeStyle) as [d|e] eqn:Hc.
        -- rewrite (set_stroke_converted _ _ _ _ _ Hg Hc). right; left. exact Hc.
        -- rewrite (set_stroke_rejected _ _ _ _ _ Hg Hc). right; right. now exists e.
  - rewrite (assign_plain_run a s Hp).
    destruct a; try discriminate; exact Hs.
Qed.

Lemma can_hold_stroke_coherent (s : TextStyle) : can_hold s -> stroke_coherent s.
Proof.
  apply can_hold_invariant.
  - left. split; [reflexivity | now left].
  - exact assign_stroke_coherent.
  - intros k s' Hs'. exact Hs'.
  - intros ls s' Hs'. exact Hs'.
  - intros s'. left. split; [reflexivity | now right].
Qed.


Lemma strict_eq_string (str : string) (v : FillStyleInputs) :
  strict_eq (RawString str) v = true -> v = RawString str.
Proof.
  destruct v; try discriminate. cbn. intros H.
  apply String.eqb_eq in H. now subst.
Qed.

Lemma strict_eq_null (v : FillStyleInputs) : strict_eq RawNull v = true -> v = RawNull.
Proof. now destruct v. Qed.

(** X12.  On every instance a program can hold, [reset] returns and puts
    every property back to its default, the descriptor of the fill being
    the one the converter gives for ['black'] and the stroke being off;
    the key is cleared and the listeners stay registered.  This holds
    also after [destroy] and after a setter threw. *)
Theorem reset_restores_defaults (s : TextStyle) (paint : option ConvertedFillStyle) :
  can_hold s ->
  convertFillInputToFillStyle (RawString "black") defaultFillStyle = Normal paint ->
  convertFillInputToFillStyle RawNull defaultStrokeStyle = Normal None ->
  completion (reset_all s) = Normal tt
  /\ final (reset_all s) = with_listeners (_listeners s) (built no_options paint None).
Proof.
  intros Hs Hcf Hcs.
  pose proof (reachable_fill_coherent _ _ _ _ _ _ s Hs) as Hfill.
  pose proof (can_hold_stroke_coherent s Hs) as Hstroke.
  clear Hs. unfold reset.
  let l := eval cbv in (entries defaultTextStyle) in
    change (entries defaultTextStyle) with l.
  change (convertFillInputToFillStyle (black_if_zero (RawString "black"))
            defaultFillStyle = Normal paint) in Hcf.
  assert (Hfill' : strict_eq (RawString "black") (_originalFill s) = true ->
                   _originalFill s = RawString "black" /\ _fill s = paint).
  { intros Hg. apply strict_eq_string in Hg. split; [exact Hg|].
    destruct Hfill as [[_ [Hu|Hu]]|[Hc|[e He]]]; rewrite Hg in *;
      try discriminate; cbn in *; congruence. }
  assert (Hstroke' : strict_eq RawNull (_originalStroke s) = true ->
                     _originalStroke s = RawNull /\ _stroke s = None).
  { intros Hg. apply strict_eq_null in Hg. split; [exact Hg|].
    destruct Hstroke as [[Hn _]|[Hc|[e He]]]; rewrite ?Hg in *;
      [exact Hn | congruence | congruence]. }
  clear Hfill Hstroke.
  destruct (strict_eq (RawString "black") (_originalFill s)) eqn:Hgf;
    destruct (strict_eq RawNull (_originalStroke s)) eqn:Hgs;
    (match goal with
     | |- completion (?c s) = _ /\ _ => eassert (Hrun : runs_to c s _) by run_setters
     end);
    destruct Hrun as [Hdone Hleft]; (split; [exact Hdone|]); rewrite Hleft;
    try (destruct (Hfill' eq_refl) as [Hof Hf]);
    try (destruct (Hstroke' eq_refl) as [Hos Hst]);
    clear Hdone Hleft; destruct s; fields; cbn in *; subst; reflexivity.
Qed.

(** ** The cached key is never stale *)

(** The key generator reads the stored property values only. *)
Hypothesis key_reads_stored :
  forall s s' : TextStyle,
    same_stored s s' -> generateTextStyleKey s = generateTextStyleKey s'.

Lemma key_fresh_frame (s s' : TextStyle) :
  same_stored s s' -> _styleKey s' = _styleKey s -> key_fresh s -> key_fresh s'.
Proof.
  unfold key_fresh. intros Hsame Hkey Hs k Hk.
  rewrite Hkey in Hk. rewrite <- (key_reads_stored _ _ Hsame). now apply Hs.
Qed.

Lemma key_fresh_cleared (s : TextStyle) : _styleKey s = None -> key_fresh s.
Proof. unfold key_fresh. intros -> k Hk. discriminate. Qed.

Lemma assign_key_fresh (a : Assignment) (s : TextStyle) :
  key_fresh s -> key_fresh (final (assign_to a s)).
Proof.
  intros Hs. destruct (is_paint a) eqn:Hp.
  - destruct a; try discriminate; cbn [assign].
    + destruct (strict_eq v (_originalFill s)) eqn:Hg.
      * now rewrite (set_fill_same _ _ _ _ Hg).
      * destruct (convertFillInputToFillStyle (black_if_zero v) defaultFillStyle)
          as [d|e] eqn:Hc.
        -- rewrite (set_fill_converted _ _ _ _ _ Hg Hc).
           now apply key_fresh_cleared.
        -- rewrite (set_fill_rejected _ _ _ _ _ Hg Hc).
           apply (key_fresh_frame s); [now destruct s | now destruct s | exact Hs].
    + destruct (strict_eq v (_originalStroke s)) eqn:Hg.
      * now rewrite (set_stroke_same _ _ _ _ Hg).
      * destruct (convertFillInputToFillStyle v defaultStrokeStyle) as [d|e] eqn:Hc.
        -- rewrite (set_stroke_converted _ _ _ _ _ Hg Hc).
           now apply key_fresh_cleared.
        -- rewrite (set_stroke_rejected _ _ _ _ _ Hg Hc).
           apply (key_fresh_frame s); [now destruct s | now destruct s | exact Hs].
  - rewrite (assign_plain_run a s Hp). now apply key_fresh_cleared.
Qed.

Lemma step_key_fresh (o : Op) (s : TextStyle) :
  key_fresh s -> key_fresh (then_ o s).
Proof.
  intros Hs. unfold after. destruct o as [a| | |l| |options]; cbn [run_op].
  - now apply assign_key_fresh.
  - unfold reset.
    apply for_each_assign_preserves; [apply assign_key_fresh | exact Hs].
  - unfold bind. destruct (cached s) as [k|] eqn:Hc.
    + now rewrite (styleKey_cached _ _ _ Hc).
    + rewrite (styleKey_dirty _ _ Hc). cbn.
      intros k Hk. cbn in Hk.
      replace (_styleKey (with_styleKey (Some (generateTextStyleKey s)) s))
        with (Some (generateTextStyleKey s)) in Hk by now destruct s.
      injection Hk as <-. apply key_reads_stored. now destruct s.
  - apply (key_fresh_frame s); [now destruct s | now destruct s | exact Hs].
  - rewrite final_bind, clone_final. now destruct (completion (clone_of s)).
  - destruct (destroy_leaves options s) as [_ ->]. now apply key_fresh_cleared.
Qed.

Lemma can_hold_key_fresh (s : TextStyle) : can_hold s -> key_fresh s.
Proof.
  induction 1 as [fresh style s Hnew | o s _ IH].
  - apply key_fresh_cleared. exact (new_key_cleared _ _ _ _ _ _ _ _ Hnew).
  - now apply step_key_fresh.
Qed.

(** X13.  On every instance a program can hold (built by the constructor,
    then used through setters, [reset], key reads, listeners, [clone] and
    [destroy], exceptions included), reading [styleKey] returns the key of
    the current property values: the cached key is never stale, and no
    event is emitted by the read. *)
Theorem styleKey_is_current (s : TextStyle) :
  can_hold s ->
  completion (key_read s) = Normal (generateTextStyleKey s)
  /\ events (key_read s) = []
  /\ same_stored (final (key_read s)) s.
Proof.
  intros Hs. pose proof (can_hold_key_fresh s Hs) as Hfresh.
  destruct (cached s) as [k|] eqn:Hc.
  - rewrite (styleKey_cached _ _ _ Hc). cbn.
    split; [|split; reflexivity]. f_equal. apply Hfresh.
    unfold cached in Hc. destruct (_styleKey s) as [k'|]; [|discriminate].
    destruct (JS.string_truthy k'); [|discriminate]. now injection Hc as ->.
  - rewrite (styleKey_dirty _ _ Hc). cbn.
    split; [reflexivity|]. split; [reflexivity|]. now destruct s.
Qed.

End FurtherProperties.

(** * The further properties at concrete inputs *)

Notation "'model_migrate'" :=
  (convertV7Tov8Style Model.Color_toNumber Model.StringToNumber).

Notation "'model_after'" :=
  (after Model.convertFillInputToFillStyle Model.defaultFillStyle
     Model.defaultStrokeStyle Model.generateTextStyleKey Model.Color_toNumber
     Model.StringToNumber).

(** The modelled key generator reads the stored property values only. *)
Lemma model_key_reads_stored (s s' : TextStyle) :
  same_stored s s' -> Model.generateTextStyleKey s = Model.generateTextStyleKey s'.
Proof.
  unfold same_stored. destruct s, s'. cbn. intros H.
  injection H as <- <- <- <- <- <- <- <- <- <- <- <- <- <- <- <- <- <- <-.
  reflexivity.
Qed.


Lemma migration_leaves_v8_options_witness :
  model_migrate 0 centered_options = (Normal tt, centered_options, []).
Proof.
  exact (migration_leaves_v8_options Model.Color_toNumber Model.StringToNumber 0
           centered_options eq_refl).
Defined.

Lemma migration_twice_nests_stroke_witness :
  stroke (final (model_migrate 1 (final (model_migrate 0 thick_stroke_options))))
  = Some (RawStyle
            (mkFillStyle 1
               (RawStyle (mkFillStyle 0 (RawString "red") None None None (Some 2%float)))
               None None None (Some 2%float))).
Proof.
  pose proof (migration_twice_nests_stroke Model.Color_toNumber Model.StringToNumber
                0 1 thick_stroke_options 2%float eq_refl eq_refl) as H.
  cbv zeta in H. exact (proj2 H).
Defined.

Lemma array_fill_with_stop_list_witness :
  exists g,
    fill (final (model_migrate 0 (legacy_fill_options_with_stops 7 [0.25%float])))
    = Some (RawStyle (mkFillStyle 2 RawUndefined None None (Some g) None))
    /\ map fst (gradientStops g) = [0.25%float; 0.5%float].
Proof.
  destruct (array_fill_with_stop_list Model.Color_toNumber Model.StringToNumber 0 7
              (legacy_fill_options_with_stops 7 [0.25%float])
              [ColorNumber 0x000000%float; ColorNumber 0xFFFFFF%float]
              [0.25%float] [0x000000%float; 0xFFFFFF%float]
              eq_refl eq_refl eq_refl) as (g & _ & Hfill & _ & _ & Hstops & _).
  exists g. split; [exact Hfill|]. rewrite Hstops. vm_compute. reflexivity.
Defined.

Lemma array_fill_without_stop_list_witness :
  completion (model_migrate 0 (legacy_fill_options 7))
  = Throw (TypeError "Cannot read properties of undefined").
Proof.
  apply (array_fill_without_stop_list Model.Color_toNumber Model.StringToNumber 0 7
           (legacy_fill_options 7)
           [ColorNumber 0x000000%float; ColorNumber 0xFFFFFF%float]
           [0x000000%float; 0xFFFFFF%float] eq_refl eq_refl eq_refl).
  discriminate.
Defined.

Lemma constructor_merges_over_defaults_witness :
  exists s,
    completion (model_new 0 centered_options) = Normal s
    /\ _align s = align_center
    /\ get_fontSize s = 30%float
    /\ _fontFamily s = FamilyName "Arial".
Proof.
  destruct (constructor_merges_over_defaults Model.convertFillInputToFillStyle
              Model.defaultFillStyle Model.defaultStrokeStyle Model.Color_toNumber
              Model.StringToNumber 0 centered_options centered_options []
              (Some black_paint) None eq_refl eq_refl eq_refl eq_refl eq_refl)
    as [Hnew _].
  eexists. split; [exact Hnew|]. vm_compute. repeat split; reflexivity.
Defined.

Lemma trimmed_style_paints :
  Model.convertFillInputToFillStyle (paint_input (_fill trimmed_style))
    Model.defaultFillStyle = Normal (Some black_paint)
  /\ Model.convertFillInputToFillStyle (paint_input (_stroke trimmed_style))
       Model.defaultStrokeStyle = Normal None.
Proof. split; vm_compute; reflexivity. Qed.

Lemma clone_copies_all_but_trim_witness :
  exists s,
    completion (model_clone trimmed_style) = Normal s
    /\ _fontSize s = _fontSize trimmed_style
    /\ _trim trimmed_style = true
    /\ _trim s = false.
Proof.
  destruct (clone_copies_all_but_trim Model.convertFillInputToFillStyle
              Model.defaultFillStyle Model.defaultStrokeStyle Model.Color_toNumber
              Model.StringToNumber trimmed_style (Some black_paint) None
              (proj1 trimmed_style_paints) (proj2 trimmed_style_paints))
    as [Hclone _].
  eexists. split; [exact Hclone|]. repeat split; reflexivity.
Defined.


Lemma reset_restores_defaults_witness :
  final (model_reset (destroyed trimmed_style)) = default_style.
Proof.
  assert (Hheld : model_reachable (destroyed trimmed_style)).
  { assert (Hsteps : destroyed trimmed_style
                     = model_after (OpDestroy (DestroyBool false))
                         (model_after (OpAssign (Assign_trim true)) default_style))
      by (vm_compute; reflexivity).
    rewrite Hsteps. apply reachable_step, reachable_step.
    exact default_style_reachable. }
  destruct (reset_restores_defaults Model.convertFillInputToFillStyle
              Model.defaultFillStyle Model.defaultStrokeStyle
              Model.generateTextStyleKey Model.Color_toNumber Model.StringToNumber
              (destroyed trimmed_style) (Some black_paint) Hheld eq_refl eq_refl)
    as [_ Hleft].
  rewrite Hleft. vm_compute. reflexivity.
Defined.

Lemma styleKey_is_current_witness :
  completion (model_styleKey trimmed_style)
  = Normal (Model.generateTextStyleKey trimmed_style).
Proof.
  assert (Hheld : model_reachable trimmed_style).
  { assert (Hstep : trimmed_style
                    = model_after (OpAssign (Assign_trim true)) default_style)
      by (vm_compute; reflexivity).
    rewrite Hstep. apply reachable_step. exact default_style_reachable. }
  exact (proj1 (styleKey_is_current Model.convertFillInputToFillStyle
                  Model.defaultFillStyle Model.defaultStrokeStyle
                  Model.generateTextStyleKey Model.Color_toNumber
                  Model.StringToNumber model_key_reads_stored trimmed_style Hheld)).
Defined.

(** * The find mixin of containers *)

(** A container of the scene graph as the mixin reads it: its [label]
    ([null], here [None], until one is given) and its [children].  The
    [uid] tells apart containers with equal labels and children. *)
#[warnings="-register-all"]
Inductive Container : Type :=
  mkContainer (uid : nat) (label : option string) (children : list Container).

Definition label (c : Container) : option string :=
  match c with mkContainer _ l _ => l end.

Definition children (c : Container) : list Container :=
  match c with mkContainer _ _ cs => cs end.

(** Induction on containers, with the property known for the children. *)
Fixpoint Container_children_ind (P : Container -> Prop)
    (step : forall uid l cs, Forall P cs -> P (mkContainer uid l cs))
    (c : Container) : P c :=
  match c with
  | mkContainer uid l cs =>
      step uid l cs
        ((fix all (cs : list Container) : Forall P cs :=
            match cs with
            | [] => Forall_nil P
            | c' :: rest =>
                Forall_cons c' (Container_children_ind P step c') (all rest)
            end) cs)
  end.

(** [out.push(child)]. *)
Definition push {A : Type} (out : list A) (x : A) : list A := out ++ [x].

(** A loop that returns the first result that is not [null]. *)
Section FirstFound.

Context {A B : Type}.
Variable f : A -> option B.

Fixpoint first_found (l : list A) : option B :=
  match l with
  | [] => None
  | x :: rest =>
      match f x with
      | Some found => Some found
      | None => first_found rest
      end
  end.

End FirstFound.

(** The order in which a deep search looks at the descendants of a
    container: its children, then for each child in turn what a deep
    search of that child looks at. *)
Fixpoint visit_order (c : Container) : list Container :=
  match c with
  | mkContainer _ _ cs => cs ++ flat_map visit_order cs
  end.

(** [x] is below [c] in the tree. *)
Inductive descendant (c : Container) : Container -> Prop :=
  | descendant_child (x : Container) :
      In x (children c) -> descendant c x
  | descendant_deeper (y x : Container) :
      In y (children c) -> descendant y x -> descendant c x.

Section FindMixin.

(** Regular expressions, with [RegExp.prototype.test] as a function of
    the string: the expressions without the [g] and [y] flags, for which
    [test] keeps no position between calls. *)
Variable RegExp : Type.
Variable test : RegExp -> string -> bool.

(** The [label] argument, [string | RegExp]. *)
Inductive LabelArg : Type :=
  | LabelString (s : string)
  | LabelRegExp (r : RegExp).

(** The string [test] is given for a label: [null] is read as ['null']. *)
Definition label_text (l : option string) : string :=
  match l with
  | Some s => s
  | None => "null"
  end.

(** [child.label === label || (label instanceof RegExp && label.test(child.label))]. *)
Definition label_matches (wanted : LabelArg) (child : Container) : bool :=
  match wanted with
  | LabelString s =>
      match label child with
      | Some t => String.eqb t s
      | None => false
      end
  | LabelRegExp r => test r (label_text (label child))
  end.

(** ** getChildByLabel *)

Fixpoint getChildByLabel (wanted : LabelArg) (deep : bool) (this : Container)
    : option Container :=
  match this with
  | mkContainer _ _ children =>
      match find (label_matches wanted) children with
      | Some child => Some child
      | None =>
          if deep then first_found (getChildByLabel wanted true) children
          else None
      end
  end.

(** ** getChildByName *)

Definition getChildByName (name : LabelArg) (deep : bool) (this : Container)
    : option Container :=
  getChildByLabel name deep this.

(** ** getChildrenByLabel

    [out] is the array the matches are pushed to, which is also the
    array returned. *)

Fixpoint getChildrenByLabel (wanted : LabelArg) (deep : bool) (this : Container)
    (out : list Container) : list Container :=
  match this with
  | mkContainer _ _ children =>
      let out1 :=
        fold_left (fun out child =>
                     if label_matches wanted child then push out child else out)
          children out in
      if deep
      then fold_left (fun out child => getChildrenByLabel wanted true child out)
             children out1
      else out1
  end.

(** ** Properties *)

Lemma push_matching (m : Container -> bool) (cs out : list Container) :
  fold_left (fun out child => if m child then push out child else out) cs out
  = out ++ filter m cs.
Proof.
  revert out. induction cs as [|c cs IH]; intros out; cbn.
  - now rewrite app_nil_r.
  - rewrite IH. destruct (m c); [|reflexivity].
    unfold push. now rewrite <- app_assoc.
Qed.

Lemma collect_each (g : Container -> list Container -> list Container)
    (cs : list Container) :
  Forall (fun c => forall out, g c out = out ++ g c []) cs ->
  forall out,
    fold_left (fun out c => g c out) cs out = out ++ flat_map (fun c => g c []) cs.
Proof.
  induction 1 as [|c cs Hc _ IH]; intros out; cbn.
  - now rewrite app_nil_r.
  - rewrite IH, Hc. now rewrite <- app_assoc.
Qed.

(** The matches are appended to what [out] holds. *)
Lemma getChildrenByLabel_out (wanted : LabelArg) (c : Container) :
  forall deep out,
    getChildrenByLabel wanted deep c out = out ++ getChildrenByLabel wanted deep c [].
Proof.
  induction c as [uid l cs IH] using Container_children_ind. intros deep out.
  cbn [getChildrenByLabel]. rewrite !push_matching. cbn [app].
  destruct deep; [|reflexivity].
  assert (Hcs : Forall (fun c => forall out,
                          getChildrenByLabel wanted true c out
                          = out ++ getChildrenByLabel wanted true c []) cs).
  { apply Forall_impl with (2 := IH). intros c Hc. apply Hc. }
  rewrite (collect_each (getChildrenByLabel wanted true) cs Hcs).
  rewrite (collect_each (getChildrenByLabel wanted true) cs Hcs (filter _ cs)).
  now rewrite app_assoc.
Qed.

(** The result on an empty array: the matching children, then for a deep
    search the results of the children in turn. *)
Lemma getChildrenByLabel_fresh (wanted : LabelArg) (deep : bool) (c : Container) :
  getChildrenByLabel wanted deep c []
  = filter (label_matches wanted) (children c)
    ++ (if deep
        then flat_map (fun c' => getChildrenByLabel wanted true c' []) (children c)
        else []).
Proof.
  destruct c as [uid l cs]. cbn [getChildrenByLabel children].
  rewrite push_matching. cbn [app]. destruct deep; [|now rewrite app_nil_r].
  apply collect_each. apply Forall_forall. intros c _ out.
  apply getChildrenByLabel_out.
Qed.

Lemma find_hd_filter (m : Container -> bool) (cs : list Container) :
  find m cs = hd_error (filter m cs).
Proof.
  induction cs as [|c cs IH]; cbn; [reflexivity|]. now destruct (m c).
Qed.

Lemma find_app (m : Container -> bool) (l l' : list Container) :
  find m (l ++ l') = match find m l with Some x => Some x | None => find m l' end.
Proof.
  induction l as [|c l IH]; cbn; [reflexivity|]. now destruct (m c).
Qed.

Lemma hd_error_app {A : Type} (l l' : list A) :
  hd_error (l ++ l') = match hd_error l with Some x => Some x | None => hd_error l' end.
Proof. now destruct l. Qed.

Lemma first_found_hd (f : Container -> option Container)
    (g : Container -> list Container) (cs : list Container) :
  Forall (fun c => f c = hd_error (g c)) cs ->
  first_found f cs = hd_error (flat_map g cs).
Proof.
  induction 1 as [|c cs Hc _ IH]; cbn; [reflexivity|].
  rewrite hd_error_app, Hc, IH. reflexivity.
Qed.

Lemma first_found_find (f : Container -> option Container) (m : Container -> bool)
    (g : Container -> list Container) (cs : list Container) :
  Forall (fun c => f c = find m (g c)) cs ->
  first_found f cs = find m (flat_map g cs).
Proof.
  induction 1 as [|c cs Hc _ IH]; cbn; [reflexivity|].
  rewrite find_app, Hc, IH. reflexivity.
Qed.

Lemma filter_flat_map (m : Container -> bool) (g h : Container -> list Container)
    (cs : list Container) :
  Forall (fun c => g c = filter m (h c)) cs ->
  flat_map g cs = filter m (flat_map h cs).
Proof.
  induction 1 as [|c cs Hc _ IH]; cbn; [reflexivity|].
  now rewrite filter_app, Hc, IH.
Qed.

(** A deep search looks at the descendants in [visit_order]. *)
Lemma getChildByLabel_find (wanted : LabelArg) (c : Container) :
  getChildByLabel wanted true c = find (label_matches wanted) (visit_order c).
Proof.
  induction c as [uid l cs IH] using Container_children_ind.
  cbn [getChildByLabel visit_order]. rewrite find_app.
  destruct (find (label_matches wanted) cs); [reflexivity|].
  now apply first_found_find.
Qed.

Lemma visit_order_descendant (c x : Container) :
  In x (visit_order c) <-> descendant c x.
Proof.
  split.
  - revert x. induction c as [uid l cs IH] using Container_children_ind.
    intros x Hx. cbn [visit_order] in Hx. apply in_app_or in Hx as [Hx|Hx].
    + now apply descendant_child.
    + apply in_flat_map in Hx as (y & Hy & Hx).
      apply (descendant_deeper _ y); [exact Hy|].
      rewrite Forall_forall in IH. now apply IH.
  - induction 1 as [c x Hx | c y x Hy _ IH]; destruct c as [uid l cs];
      cbn [visit_order children] in *; apply in_or_app.
    + now left.
    + right. apply in_flat_map. now exists y.
Qed.

(** X14.  [getChildrenByLabel] keeps what the array given as [out] holds
    and appends its matches, so collecting from two containers into one
    array gives the results of the first followed by those of the second. *)
Theorem getChildrenByLabel_appends (wanted : LabelArg) (deep : bool)
    (c1 c2 : Container) (out : list Container) :
  getChildrenByLabel wanted deep c1 out
  = out ++ getChildrenByLabel wanted deep c1 []
  /\ getChildrenByLabel wanted deep c2 (getChildrenByLabel wanted deep c1 out)
     = out ++ getChildrenByLabel wanted deep c1 []
           ++ getChildrenByLabel wanted deep c2 [].
Proof.
  split; [apply getChildrenByLabel_out|].
  rewrite (getChildrenByLabel_out wanted c2), (getChildrenByLabel_out wanted c1).
  now rewrite app_assoc.
Qed.

(** X15.  [getChildByLabel] returns the first element of what
    [getChildrenByLabel] collects with the same arguments, and [null]
    when that array is empty: the two searches visit in the same order. *)
Theorem getChildByLabel_first_of_all (wanted : LabelArg) (deep : bool) (c : Container) :
  getChildByLabel wanted deep c = hd_error (getChildrenByLabel wanted deep c []).
Proof.
  induction c as [uid l cs IH] using Container_children_ind.
  rewrite getChildrenByLabel_fresh, hd_error_app. cbn [getChildByLabel children].
  rewrite <- find_hd_filter.
  destruct (find (label_matches wanted) cs); [reflexivity|].
  destruct deep; [|reflexivity].
  apply first_found_hd. apply Forall_impl with (2 := IH).
  intros c Hc. apply Hc.
Qed.

(** X16.  A search that is not deep collects the matching children, in
    the order of [children].  A deep search collects the matching
    descendants in [visit_order]: the matching children first, then the
    results of each child; a container is in the result exactly when it
    is a descendant that matches. *)
Theorem getChildrenByLabel_collects (wanted : LabelArg) (c : Container) :
  getChildrenByLabel wanted false c [] = filter (label_matches wanted) (children c)
  /\ getChildrenByLabel wanted true c []
     = filter (label_matches wanted) (visit_order c)
  /\ forall x, In x (getChildrenByLabel wanted true c [])
               <-> descendant c x /\ label_matches wanted x = true.
Proof.
  assert (Hdeep : forall c', getChildrenByLabel wanted true c' []
                             = filter (label_matches wanted) (visit_order c')).
  { induction c' as [uid l cs IH] using Container_children_ind.
    rewrite getChildrenByLabel_fresh. cbn [children visit_order].
    rewrite filter_app. f_equal. now apply filter_flat_map. }
  split; [rewrite getChildrenByLabel_fresh; now rewrite app_nil_r|].
  split; [apply Hdeep|].
  intros x. rewrite Hdeep, filter_In, visit_order_descendant. reflexivity.
Qed.

(** X17.  A deep [getChildByLabel] returns [null] exactly when no
    descendant matches, and otherwise a descendant that matches.  A
    matching child is preferred to every deeper match, also to one below
    an earlier child: the search is not a pre-order traversal. *)
Theorem getChildByLabel_finds_match (wanted : LabelArg) (c : Container) :
  (getChildByLabel wanted true c = None
   <-> forall x, descendant c x -> label_matches wanted x = false)
  /\ (forall x, getChildByLabel wanted true c = Some x ->
                descendant c x /\ label_matches wanted x = true)
  /\ (forall deep x, find (label_matches wanted) (children c) = Some x ->
                     getChildByLabel wanted deep c = Some x).
Proof.
  rewrite getChildByLabel_find. split; [split|split].
  - intros Hnone x Hx. apply (find_none _ _ Hnone). now apply visit_order_descendant.
  - intros Hall.
    destruct (find (label_matches wanted) (visit_order c)) as [x|] eqn:Hfind;
      [|reflexivity].
    apply find_some in Hfind as [Hin Hm].
    apply visit_order_descendant in Hin. rewrite (Hall x Hin) in Hm. discriminate.
  - intros x Hfind. apply find_some in Hfind as [Hin Hm].
    split; [now apply visit_order_descendant | exact Hm].
  - intros deep x Hfind. destruct c as [uid l cs]. cbn [getChildByLabel children] in *.
    now rewrite Hfind.
Qed.

End FindMixin.
